(** * ImageWidget: a shallow embedding of
      PyQtExamples/ShowImageExample/image_widget.py

    The widget keeps one image, rescales every submitted buffer with
    OpenCV, wraps it in a [QImage] and paints it from [paintEvent].  The
    Python object, the output stream and the widget's surface are threaded
    through a small state-and-exception monad; the three libraries the file
    calls (numpy, cv2, PyQt5) are modelled by their documented behaviour in
    the modules [np], [cv2] and [Qt].

    Buffers hold one byte per value (uint8).  Memory is a list of cells: a
    cell holds a byte, or nothing when no one has written it since it was
    allocated.  The cv2 model is that of OpenCV 4.  The bytes an
    interpolation computes are left open: the widget is parameterised by
    the interpolation method. *)

From Stdlib Require Import NArith ZArith QArith List String Bool Lia.
From Stdlib Require Import Strings.Byte.
Import ListNotations.
Local Open Scope N_scope.

(** ** Python values and exceptions *)

Inductive exn : Type :=
| IndexError
| ZeroDivisionError
| AttributeError
| cv2_error.

Inductive outcome (A : Type) : Type :=
| Return (a : A)
| Raise (e : exn).
Arguments Return {A} a.
Arguments Raise {A} e.

(** [t[i]] on a tuple of ints. *)
Definition getitem (t : list N) (i : nat) : outcome N :=
  match nth_error t i with
  | Some v => Return v
  | None => Raise IndexError
  end.

(** [t[lo:hi]] on a tuple; slicing never raises. *)
Definition slice (t : list N) (lo hi : nat) : list N :=
  firstn (hi - lo) (skipn lo t).

(** [a / b] on two ints: true division.  The value is the exact quotient,
    of which the Python float is the nearest double. *)
Definition truediv (a b : N) : outcome Q :=
  match b with
  | N0 => Raise ZeroDivisionError
  | Npos p => Return (Z.of_N a # p)
  end.

(** [range(n)] *)
Definition range (n : nat) : list N := map N.of_nat (seq 0 n).

(** ** Memory *)

(** A byte of memory: [Some v] once [v] has been stored in it, [None] as
    long as nothing has been written since the allocator handed it out. *)
Definition cell : Type := option byte.

(** ** numpy *)

Module np.

(** An array: its shape and its memory in row-major order. *)
Record ndarray : Type := { shape : list N; data : list cell }.

(** [a.size]: the number of elements, the product of the shape. *)
Definition size (a : ndarray) : N := fold_right N.mul 1 (shape a).

End np.

(** ** PyQt5 *)

Module Qt.

Inductive Format : Type :=
| Format_Invalid
| Format_Indexed8
| Format_RGB888.

(** Bits per pixel of a format. *)
Definition depth (f : Format) : N :=
  match f with
  | Format_Invalid => 0
  | Format_Indexed8 => 8
  | Format_RGB888 => 24
  end.

(** [ro_data] is set while the bytes are a buffer of the caller that the
    image only reads. *)
Record QImageData : Type := {
  bits : list cell;
  d_width : N;
  d_height : N;
  d_bytesPerLine : N;
  d_format : Format;
  colorTable : list N;
  ro_data : bool }.

(** A [QImage] is null (no data) or holds image data. *)
Inductive QImage : Type :=
| NullImage
| Image (d : QImageData).

(** [QImage()] *)
Definition QImage_empty : QImage := NullImage.

(** [QImage(data, width, height, bytesPerLine, format)]: invalid
    parameters give the null image. *)
Definition QImage_of_data (buf : np.ndarray) (w h bpl : N) (f : Format)
  : QImage :=
  if (w =? 0) || (h =? 0) || (bpl =? 0)
     || (bpl <? (w * depth f + 7) / 8)
     || match f with Format_Invalid => true | _ => false end
  then NullImage
  else Image {| bits := np.data buf; d_width := w; d_height := h;
                d_bytesPerLine := bpl; d_format := f; colorTable := [];
                ro_data := true |}.

Definition isNull (img : QImage) : bool :=
  match img with NullImage => true | Image _ => false end.

Definition width (img : QImage) : N :=
  match img with NullImage => 0 | Image d => d_width d end.

Definition height (img : QImage) : N :=
  match img with NullImage => 0 | Image d => d_height d end.

(** Line [i] of an image. *)
Definition scanLine (d : QImageData) (i : nat) : list cell :=
  firstn (N.to_nat (d_bytesPerLine d))
    (skipn (i * N.to_nat (d_bytesPerLine d)) (bits d)).

(** Bytes per line of an image the library allocates itself: lines are
    aligned to 32 bits. *)
Definition aligned_bytesPerLine (w : N) (f : Format) : N :=
  (w * depth f + 31) / 32 * 4.

(** [img.copy()]: a freshly allocated image of the same size and format.
    Each line receives the bytes of the source line, as many as both lines
    hold; the rest of the line is left unwritten. *)
Definition copy (d : QImageData) : QImageData :=
  let bpl := aligned_bytesPerLine (d_width d) (d_format d) in
  let n := N.min (d_bytesPerLine d) bpl in
  {| bits :=
       flat_map
         (fun i =>
            let line := firstn (N.to_nat n) (scanLine d i) in
            line ++ repeat None (N.to_nat bpl - List.length line))
         (seq 0 (N.to_nat (d_height d)));
     d_width := d_width d; d_height := d_height d;
     d_bytesPerLine := bpl; d_format := d_format d;
     colorTable := colorTable d; ro_data := false |}.

(** Before it is modified, an image over a caller's buffer is replaced by
    a copy of its own. *)
Definition detach (d : QImageData) : QImageData :=
  if ro_data d then copy d else d.

(** [img.setColorTable(colors)]: detaches, then sets the table; a null
    image ignores it. *)
Definition setColorTable (img : QImage) (colors : list N) : QImage :=
  match img with
  | NullImage => NullImage
  | Image d =>
      let d' := detach d in
      Image {| bits := bits d'; d_width := d_width d';
               d_height := d_height d';
               d_bytesPerLine := d_bytesPerLine d';
               d_format := d_format d'; colorTable := colors;
               ro_data := ro_data d' |}
  end.

(** The largest width or height a widget can be given. *)
Definition QWIDGETSIZE_MAX : N := 16777215.

(** [QPixmap(img)]: the pixmap of an image; null when the image is. *)
Inductive QPixmap : Type := PixmapOf (img : QImage).

Definition pixmap_isNull (pm : QPixmap) : bool :=
  match pm with PixmapOf img => isNull img end.

(** [qRgb(r, g, b)]: an opaque 32-bit ARGB quadruplet. *)
Definition qRgb (r g b : N) : N :=
  N.lor (N.shiftl 255 24)
    (N.lor (N.shiftl (N.land r 255) 16)
       (N.lor (N.shiftl (N.land g 255) 8) (N.land b 255))).

Definition qRed (c : N) : N := N.land (N.shiftr c 16) 255.
Definition qGreen (c : N) : N := N.land (N.shiftr c 8) 255.
Definition qBlue (c : N) : N := N.land c 255.

(** One [painter.drawPixmap(x, y, w, h, pixmap)] call. *)
Record draw_call : Type := DrawPixmap {
  dc_x : N; dc_y : N; dc_w : N; dc_h : N; dc_pixmap : QPixmap }.

End Qt.

(** ** cv2 *)

Module cv2.

(** OpenCV's view of an array: rows, columns, channels per element. *)
Record Mat : Type := { rows : N; cols : N; channels : N; mdata : list cell }.

(** The most channels a matrix element can have (OpenCV 4). *)
Definition CV_CN_MAX : N := 512.

(** A 2-D array is a one-channel matrix, a 3-D array a matrix whose last
    axis holds the channels, as long as there are at most [CV_CN_MAX] of
    them.  Every other array of this program is a matrix of more than two
    dimensions, which has no rows, columns or channels: [None]. *)
Definition Mat_of_ndarray (a : np.ndarray) : option Mat :=
  match np.shape a with
  | [r; c] =>
      Some {| rows := r; cols := c; channels := 1; mdata := np.data a |}
  | [r; c; ch] =>
      if ch <=? CV_CN_MAX
      then Some {| rows := r; cols := c; channels := ch;
                   mdata := np.data a |}
      else None
  | _ => None
  end.

(** A one-channel matrix comes back as a 2-D array. *)
Definition ndarray_of_Mat (m : Mat) : np.ndarray :=
  {| np.shape := if channels m =? 1 then [rows m; cols m]
                 else [rows m; cols m; channels m];
     np.data := mdata m |}.

(** An interpolation method gives the bytes of the destination from the
    source and the destination's columns and rows. *)
Definition interpolation_method : Type := Mat -> N -> N -> list cell.

(** [cv2.resize(src, dsize, dst, fx, interpolation=...)], with [fy] left
    at its default 0.  [dsize] is (width, height); when it is non-empty
    it is the size of the result and the scale factors are not
    consulted; when it is empty both factors must be positive, which
    [fy = 0] is not.

    For a source of more than two matrix dimensions the source size is
    read off its first two axes, and the result, of one channel, is
    allocated before anything else.  When [dsize] is that size the copy
    that follows goes to a matrix of its own and the allocated result is
    returned unwritten; otherwise the scaling refuses the source.  Arrays
    of fewer than two dimensions do not reach [resize] in this program. *)
Definition resize (src : np.ndarray) (dsize : list N) (dst fx : Q)
    (interpolation : interpolation_method) : outcome np.ndarray :=
  match Mat_of_ndarray src with
  | Some m =>
      if (rows m =? 0) || (cols m =? 0) then Raise cv2_error
      else
        match dsize with
        | [dw; dh] =>
            if (dw =? 0) || (dh =? 0) then Raise cv2_error
            else Return (ndarray_of_Mat
                   {| rows := dh; cols := dw; channels := channels m;
                      mdata := interpolation m dw dh |})
        | _ => Raise cv2_error
        end
  | None =>
      match np.shape src, dsize with
      | s0 :: s1 :: _ :: _, [dw; dh] =>
          if (s0 =? 0) || (s1 =? 0) then Raise cv2_error
          else if (dw =? 0) || (dh =? 0) then Raise cv2_error
          else if (dw =? s1) && (dh =? s0)
          then Return (ndarray_of_Mat
                 {| rows := dh; cols := dw; channels := 1;
                    mdata := repeat None (N.to_nat (dh * dw)) |})
          else Raise cv2_error
      | _, _ => Raise cv2_error
      end
  end.

(** Blue-green-red(-alpha) elements to red-green-blue ones. *)
Fixpoint bgr2rgb (alpha : bool) (l : list cell) : list cell :=
  match l with
  | b :: g :: r :: rest =>
      r :: g :: b ::
        (if alpha
         then match rest with
              | [] => []
              | _ :: rest' => bgr2rgb alpha rest'
              end
         else bgr2rgb alpha rest)
  | _ => []
  end.

(** [cv2.cvtColor(src, cv2.COLOR_BGR2RGB)]: the source has three or four
    channels, the result three. *)
Definition cvtColor_BGR2RGB (src : np.ndarray) : outcome np.ndarray :=
  match Mat_of_ndarray src with
  | None => Raise cv2_error
  | Some m =>
      if (rows m =? 0) || (cols m =? 0) then Raise cv2_error
      else if (channels m =? 3) || (channels m =? 4)
      then Return (ndarray_of_Mat
             {| rows := rows m; cols := cols m; channels := 3;
                mdata := bgr2rgb (channels m =? 4) (mdata m) |})
      else Raise cv2_error
  end.

End cv2.

(** ** The widget object and the world around it *)

Record ImageWidget : Type := {
  desired_width : N;
  showed_image : option Qt.QImage;      (* [None] is Python's None *)
  grayscale_colortable : list N;
  (* state of the QWidget base class *)
  fixed_size : option (N * N);          (* set by [setFixedSize(w, h)] *)
  visible : bool }.

(** [painter_calls] lists the [drawPixmap] calls made on the widget's
    painter; [canvas] lists those that paint: the painter ignores a null
    pixmap. *)
Record world : Type := {
  self : ImageWidget;
  painter_calls : list Qt.draw_call;
  canvas : list Qt.draw_call;
  stdout : list string }.

(** ** State and exceptions *)

Definition M (A : Type) : Type := world -> outcome A * world.

Definition ret {A : Type} (a : A) : M A := fun w => (Return a, w).

Definition bind {A B : Type} (m : M A) (k : A -> M B) : M B :=
  fun w =>
    match m w with
    | (Return a, w') => k a w'
    | (Raise e, w') => (Raise e, w')
    end.

Definition lift {A : Type} (o : outcome A) : M A := fun w => (o, w).

Notation "x <- m ;; k" := (bind m (fun x => k))
  (at level 61, m at next level, right associativity).
Notation "m ;;; k" := (bind m (fun _ => k))
  (at level 61, right associativity).

Definition result {A : Type} (m : M A) (w : world) : outcome A := fst (m w).
Definition exec {A : Type} (m : M A) (w : world) : world := snd (m w).

Definition get {A : Type} (field : ImageWidget -> A) : M A :=
  fun w => (Return (field (self w)), w).

Definition update_self (f : ImageWidget -> ImageWidget) : M unit :=
  fun w => (Return tt,
            {| self := f (self w); painter_calls := painter_calls w;
               canvas := canvas w; stdout := stdout w |}).

Definition set_desired_width (v : N) : M unit :=
  update_self (fun s =>
    {| desired_width := v; showed_image := showed_image s;
       grayscale_colortable := grayscale_colortable s;
       fixed_size := fixed_size s; visible := visible s |}).

Definition set_showed_image (v : option Qt.QImage) : M unit :=
  update_self (fun s =>
    {| desired_width := desired_width s; showed_image := v;
       grayscale_colortable := grayscale_colortable s;
       fixed_size := fixed_size s; visible := visible s |}).

Definition set_grayscale_colortable (v : list N) : M unit :=
  update_self (fun s =>
    {| desired_width := desired_width s; showed_image := showed_image s;
       grayscale_colortable := v;
       fixed_size := fixed_size s; visible := visible s |}).

(** [self.setFixedSize(w, h)]: the toolkit caps both sides. *)
Definition setFixedSize (w h : N) : M unit :=
  update_self (fun s =>
    {| desired_width := desired_width s; showed_image := showed_image s;
       grayscale_colortable := grayscale_colortable s;
       fixed_size := Some (N.min w Qt.QWIDGETSIZE_MAX,
                           N.min h Qt.QWIDGETSIZE_MAX);
       visible := visible s |}).

Definition set_visible (v : bool) : M unit :=
  update_self (fun s =>
    {| desired_width := desired_width s; showed_image := showed_image s;
       grayscale_colortable := grayscale_colortable s;
       fixed_size := fixed_size s; visible := v |}).

(** [print(s)] *)
Definition print (s : string) : M unit :=
  fun w => (Return tt,
            {| self := self w; painter_calls := painter_calls w;
               canvas := canvas w; stdout := stdout w ++ [s] |}).

(** [painter.drawPixmap(x, y, w, h, pm)] on the widget's painter. *)
Definition drawPixmap (x y w h : N) (pm : Qt.QPixmap) : M unit :=
  fun wd =>
    let c := Qt.DrawPixmap x y w h pm in
    (Return tt,
     {| self := self wd;
        painter_calls := painter_calls wd ++ [c];
        canvas := if Qt.pixmap_isNull pm then canvas wd
                  else canvas wd ++ [c];
        stdout := stdout wd |}).

(** ** The methods of ImageWidget *)

(** [paintEvent(self, event)]: the guard is
    [if not self.showed_image is None]. *)
Definition paintEvent : M unit :=
  img <- get showed_image ;;
  match img with
  | None => ret tt
  | Some showed =>
      drawPixmap 0 0 (Qt.width showed) (Qt.height showed)
        (Qt.PixmapOf showed)
  end.

(** [self.repaint()]: the toolkit calls [paintEvent] at once, unless the
    widget is hidden. *)
Definition repaint : M unit :=
  shown <- get visible ;;
  if shown then paintEvent else ret tt.

(** [self.showed_image.setColorTable(table)] *)
Definition showed_image_setColorTable (table : list N) : M unit :=
  img <- get showed_image ;;
  match img with
  | None => lift (Raise AttributeError)
  | Some showed => set_showed_image (Some (Qt.setColorTable showed table))
  end.

(** [clearBuffers(self)] *)
Definition clearBuffers : M unit :=
  set_showed_image (Some Qt.QImage_empty) ;;;
  repaint.

Section Widget.

(** [cv2.INTER_LINEAR] *)
Variable INTER_LINEAR : cv2.interpolation_method.

(** [updateImage(self, new_image)].  The call
    [cv2.resize(new_image, new_image.shape[0:2], scaling_factor,
    scaling_factor, interpolation=cv2.INTER_LINEAR)] passes the scaling
    factor in the positions of [dst] and [fx]; the colour branch converts
    [new_image] and rebinds [scaled_image] to the result. *)
Definition updateImage (new_image : np.ndarray) : M unit :=
  if negb (np.size new_image =? 0) then
    dw <- get desired_width ;;
    w1 <- lift (getitem (np.shape new_image) 1) ;;
    scaling_factor <- lift (truediv dw w1) ;;
    scaled_image <-
      lift (cv2.resize new_image (slice (np.shape new_image) 0 2)
              scaling_factor scaling_factor INTER_LINEAR) ;;
    s1 <- lift (getitem (np.shape scaled_image) 1) ;;
    s0 <- lift (getitem (np.shape scaled_image) 0) ;;
    setFixedSize s1 s0 ;;;
    height <- lift (getitem (np.shape scaled_image) 0) ;;
    width <- lift (getitem (np.shape scaled_image) 1) ;;
    (if (List.length (np.shape scaled_image) =? 2)%nat then
       set_showed_image
         (Some (Qt.QImage_of_data scaled_image width height width
                  Qt.Format_Indexed8)) ;;;
       table <- get grayscale_colortable ;;
       showed_image_setColorTable table
     else
       scaled_image <- lift (cv2.cvtColor_BGR2RGB new_image) ;;
       set_showed_image
         (Some (Qt.QImage_of_data scaled_image width height (3 * width)
                  Qt.Format_RGB888))) ;;;
    repaint
  else
    print "Not updating image. The provided image is empty".

(** The widget as the toolkit hands it to [__init__]: hidden, no size
    constraint, nothing painted or printed.  The three attributes are
    unset until [__init__] assigns them; nothing reads them before. *)
Definition QWidget_fresh : world :=
  {| self := {| desired_width := 0; showed_image := None;
                grayscale_colortable := [];
                fixed_size := None; visible := false |};
     painter_calls := []; canvas := []; stdout := [] |}.

(** [__init__(self, parent)], after the base class is initialised. *)
Definition __init__ : M unit :=
  set_desired_width 480 ;;;
  set_showed_image None ;;;
  clearBuffers ;;;
  set_grayscale_colortable (map (fun i => Qt.qRgb i i i) (range 256)).

Definition new_widget : world := exec __init__ QWidget_fresh.

(** What can happen to a widget: the two methods the application calls,
    the paint callback, and the toolkit showing or hiding it. *)
Inductive op : Type :=
| Submit (new_image : np.ndarray)
| Clear
| Paint
| Show
| Hide.

Definition step (o : op) : M unit :=
  match o with
  | Submit new_image => updateImage new_image
  | Clear => clearBuffers
  | Paint => paintEvent
  | Show => set_visible true
  | Hide => set_visible false
  end.

Inductive reachable : world -> Prop :=
| reach_new : reachable new_widget
| reach_step (o : op) (w : world) :
    reachable w -> reachable (exec (step o) w).

Definition run (ops : list op) (w : world) : world :=
  fold_left (fun w o => exec (step o) w) ops w.

End Widget.

(** The widget shows no image: the field is None or holds a null image. *)
Definition has_no_image (w : world) : bool :=
  match showed_image (self w) with
  | None => true
  | Some img => Qt.isNull img
  end.

(** A submit that went through: the buffer was not empty and no exception
    came out. *)
Definition accepted (INTER_LINEAR : cv2.interpolation_method)
    (new_image : np.ndarray) (w : world) : Prop :=
  np.size new_image <> 0 /\
  result (updateImage INTER_LINEAR new_image) w = Return tt.

(** ** Sample data
    The theorems below hold for every interpolation method; the examples
    are run with nearest-neighbour sampling. *)

Definition INTER_NEAREST : cv2.interpolation_method :=
  fun m dw dh =>
    flat_map (fun r =>
      flat_map (fun c =>
        let sr := r * cv2.rows m / dh in
        let sc := c * cv2.cols m / dw in
        firstn (N.to_nat (cv2.channels m))
          (skipn (N.to_nat ((sr * cv2.cols m + sc) * cv2.channels m))
             (cv2.mdata m)))
        (range (N.to_nat dw)))
      (range (N.to_nat dh)).

(** 2 rows of 4 columns, one channel. *)
Definition gray_2x4 : np.ndarray :=
  {| np.shape := [2; 4];
     np.data := map Some [x00; x10; x20; x30; x40; x50; x60; x70] |}.

Definition gray_2x4' : np.ndarray :=
  {| np.shape := [2; 4];
     np.data := map Some [xff; xee; xdd; xcc; xbb; xaa; x99; x88] |}.

(** 1 row of 2 columns, three channels: a blue pixel and a red one. *)
Definition color_1x2 : np.ndarray :=
  {| np.shape := [1; 2; 3];
     np.data := map Some [xff; x00; x00; x00; x00; xff] |}.

(** 0 rows of 5 columns. *)
Definition empty_0x5 : np.ndarray :=
  {| np.shape := [0; 5]; np.data := [] |}.

(** ** Vocabulary of the statements *)

(** The call [paintEvent] makes for a stored image. *)
Definition blit (img : Qt.QImage) : Qt.draw_call :=
  Qt.DrawPixmap 0 0 (Qt.width img) (Qt.height img) (Qt.PixmapOf img).

(** The indexed image over [bytes], [dw] wide and [dh] high with [dw]
    bytes per line, as [QImage(...)] wraps the caller's buffer. *)
Definition indexed_view (bytes : list cell) (dw dh : N) : Qt.QImageData :=
  {| Qt.bits := bytes;
     Qt.d_width := dw; Qt.d_height := dh; Qt.d_bytesPerLine := dw;
     Qt.d_format := Qt.Format_Indexed8; Qt.colorTable := [];
     Qt.ro_data := true |}.

(** What the indexed branch of [updateImage] stores: the image's own
    copy of that view, in aligned lines, with a colour table. *)
Definition gray_data (bytes : list cell) (dw dh : N) (table : list N)
  : Qt.QImageData :=
  {| Qt.bits := Qt.bits (Qt.copy (indexed_view bytes dw dh));
     Qt.d_width := dw; Qt.d_height := dh;
     Qt.d_bytesPerLine := Qt.aligned_bytesPerLine dw Qt.Format_Indexed8;
     Qt.d_format := Qt.Format_Indexed8; Qt.colorTable := table;
     Qt.ro_data := false |}.

(** What the direct-colour branch wraps. *)
Definition rgb_data (bytes : list cell) (w h : N) : Qt.QImageData :=
  {| Qt.bits := bytes;
     Qt.d_width := w; Qt.d_height := h; Qt.d_bytesPerLine := 3 * w;
     Qt.d_format := Qt.Format_RGB888; Qt.colorTable := [];
     Qt.ro_data := true |}.

(** The matrix of a buffer of [h] rows and [wd] columns of one channel. *)
Definition gray_Mat (b : np.ndarray) (h wd : N) : cv2.Mat :=
  {| cv2.rows := h; cv2.cols := wd; cv2.channels := 1;
     cv2.mdata := np.data b |}.

(** [paintEvent] makes no [drawPixmap] call and paints nothing when the
    widget shows no image. *)
Definition paints_nothing_without_image (w : world) : Prop :=
  has_no_image w = true ->
  painter_calls (exec paintEvent w) = painter_calls w /\
  canvas (exec paintEvent w) = canvas w.

(** Operations that store nothing: paint callbacks, showing, hiding. *)
Definition stores_nothing (o : op) : bool :=
  match o with
  | Paint | Show | Hide => true
  | Submit _ | Clear => false
  end.

(** [keeps R m]: running [m] takes a world to an [R]-related one, whether
    it returns or raises. *)
Definition keeps {A : Type} (R : world -> world -> Prop) (m : M A) : Prop :=
  forall w, R w (exec m w).

(** A field of the widget is left alone. *)
Definition same {X : Type} (f : ImageWidget -> X) : world -> world -> Prop :=
  fun w w' => f (self w') = f (self w).

(** The stored image, once not None, stays not None. *)
Definition stays_present : world -> world -> Prop :=
  fun w w' =>
    showed_image (self w) <> None -> showed_image (self w') <> None.

(** Entry [n] of a colour table is the grey of intensity [n]. *)
Definition gray_entry (table : list N) (n : nat) : bool :=
  match nth_error table n with
  | Some c =>
      (c =? Qt.qRgb (N.of_nat n) (N.of_nat n) (N.of_nat n))
      && (Qt.qRed c =? N.of_nat n)
      && (Qt.qGreen c =? N.of_nat n)
      && (Qt.qBlue c =? N.of_nat n)
  | None => false
  end.

(** A buffer that is no matrix of rows and columns: more than three axes,
    or a third axis too long for channels. *)
Definition no_matrix_shape (s2 : N) (rest : list N) : Prop :=
  rest <> [] \/ cv2.CV_CN_MAX < s2.

(** The two layouts [updateImage] stores: indexed, in lines of its own
    aligned to 32 bits and all there, with a colour table; or direct
    colour over the caller's buffer, three bytes per pixel in a line, no
    table. *)
Definition wrapped_layout (table : list N) (d : Qt.QImageData) : Prop :=
  0 < Qt.d_width d /\ 0 < Qt.d_height d /\
  ((Qt.d_format d = Qt.Format_Indexed8 /\
    Qt.d_bytesPerLine d
      = Qt.aligned_bytesPerLine (Qt.d_width d) Qt.Format_Indexed8 /\
    List.length (Qt.bits d)
      = N.to_nat (Qt.d_bytesPerLine d * Qt.d_height d) /\
    Qt.colorTable d = table /\ Qt.ro_data d = false) \/
   (Qt.d_format d = Qt.Format_RGB888 /\
    Qt.d_bytesPerLine d = 3 * Qt.d_width d /\
    Qt.colorTable d = [] /\ Qt.ro_data d = true)).

(** The stored image, when it has data, has one of the two layouts. *)
Definition image_layout (w : world) : Prop :=
  match showed_image (self w) with
  | Some (Qt.Image d) => wrapped_layout (grayscale_colortable (self w)) d
  | _ => True
  end.

(** The widget has no fixed size or one with positive sides. *)
Definition positive_fixed_size (w : world) : Prop :=
  match fixed_size (self w) with
  | None => True
  | Some (a, b) => 0 < a /\ 0 < b
  end.

(** The image a call draws. *)
Definition image_of (c : Qt.draw_call) : Qt.QImage :=
  match Qt.dc_pixmap c with Qt.PixmapOf img => img end.

(** A call at (0, 0) spanning the width and height of its own image. *)
Definition origin_blit (c : Qt.draw_call) : Prop := c = blit (image_of c).

(** A call that paints: its image has data and positive sides. *)
Definition paints (c : Qt.draw_call) : Prop :=
  Qt.isNull (image_of c) = false /\ 0 < Qt.dc_w c /\ 0 < Qt.dc_h c.

(** Operations that neither paint on request nor show the widget. *)
Definition stays_hidden (o : op) : bool :=
  match o with
  | Submit _ | Clear | Hide => true
  | Paint | Show => false
  end.

(** 1 row of 2 columns, four channels: blue and red, both opaque. *)
Definition bgra_1x2 : np.ndarray :=
  {| np.shape := [1; 2; 4];
     np.data := map Some [xff; x00; x00; x80; x00; x00; xff; x80] |}.

(** 2 rows of 2 columns, 2 by 2 values in each place: four axes. *)
Definition four_axes_2x2 : np.ndarray :=
  {| np.shape := [2; 2; 2; 2];
     np.data := map Some [x00; x01; x02; x03; x04; x05; x06; x07;
                          x08; x09; x0a; x0b; x0c; x0d; x0e; x0f] |}.

(** 1 row of 17000000 columns, one channel. *)
Definition wide_1x17000000 : np.ndarray :=
  {| np.shape := [1; 17000000];
     np.data := repeat (Some x00) (N.to_nat 17000000) |}.

(** 1 row of 2 columns, two channels. *)
Definition two_channel_1x2 : np.ndarray :=
  {| np.shape := [1; 2; 2]; np.data := map Some [x01; x02; x03; x04] |}.

(** 3 elements, one dimension. *)
Definition flat_3 : np.ndarray :=
  {| np.shape := [3]; np.data := map Some [x01; x02; x03] |}.

(** 2 rows of 4 columns, one channel kept as a third axis. *)
Definition gray_2x4x1 : np.ndarray :=
  {| np.shape := [2; 4; 1];
     np.data := map Some [x00; x10; x20; x30; x40; x50; x60; x70] |}.

(** * Properties *)

(** ** The monad *)

Lemma bind_Return {A B : Type} (m : M A) (k : A -> M B) (w w' : world)
    (a : A) :
  m w = (Return a, w') -> bind m k w = k a w'.
Proof. intros E; unfold bind; rewrite E; reflexivity. Qed.

Lemma bind_Raise {A B : Type} (m : M A) (k : A -> M B) (w w' : world)
    (e : exn) :
  m w = (Raise e, w') -> bind m k w = (Raise e, w').
Proof. intros E; unfold bind; rewrite E; reflexivity. Qed.

Section Keeps.

Variable R : world -> world -> Prop.
Hypothesis R_refl : forall w, R w w.
Hypothesis R_trans : forall x y z, R x y -> R y z -> R x z.

Lemma keeps_ret {A : Type} (a : A) : keeps R (ret a).
Proof. intros w; apply R_refl. Qed.

Lemma keeps_lift {A : Type} (o : outcome A) : keeps R (lift o).
Proof. intros w; apply R_refl. Qed.

Lemma keeps_get {A : Type} (f : ImageWidget -> A) : keeps R (get f).
Proof. intros w; apply R_refl. Qed.

Lemma keeps_bind {A B : Type} (m : M A) (k : A -> M B) :
  keeps R m -> (forall a, keeps R (k a)) -> keeps R (bind m k).
Proof.
  intros Hm Hk w. specialize (Hm w). unfold exec in *.
  destruct (m w) as [[a | e] w'] eqn:E.
  - rewrite (bind_Return _ _ _ _ _ E). simpl in Hm.
    apply (R_trans _ _ _ Hm), Hk.
  - rewrite (bind_Raise _ _ _ _ _ E). exact Hm.
Qed.

End Keeps.

Lemma same_refl {X : Type} (f : ImageWidget -> X) (w : world) : same f w w.
Proof. reflexivity. Qed.

Lemma same_trans {X : Type} (f : ImageWidget -> X) (x y z : world) :
  same f x y -> same f y z -> same f x z.
Proof. unfold same; congruence. Qed.

Lemma stays_present_refl (w : world) : stays_present w w.
Proof. intros H; exact H. Qed.

Lemma stays_present_trans (x y z : world) :
  stays_present x y -> stays_present y z -> stays_present x z.
Proof. unfold stays_present; auto. Qed.

(** Splits a monadic program along its binds and branches; the leaves are
    left to [tac]. *)
Ltac keeps_with Hrefl Htrans tac :=
  repeat first
    [ apply (keeps_bind _ Htrans); [ | intro ]
    | apply (keeps_ret _ Hrefl)
    | apply (keeps_lift _ Hrefl)
    | apply (keeps_get _ Hrefl)
    | match goal with
      | |- keeps _ (if ?c then _ else _) => destruct c
      | |- keeps _ (match ?x with _ => _ end) => destruct x
      end
    | solve [ tac ] ].

(** ** The methods leave the configuration alone *)

Section Frame.

Context {X : Type} (f : ImageWidget -> X).

Lemma paintEvent_same : keeps (same f) paintEvent.
Proof.
  unfold paintEvent.
  keeps_with (same_refl f) (same_trans f) ltac:(intro; reflexivity).
Qed.

Lemma repaint_same : keeps (same f) repaint.
Proof.
  unfold repaint.
  keeps_with (same_refl f) (same_trans f)
    ltac:(first [ apply paintEvent_same | intro; reflexivity ]).
Qed.

End Frame.

Section Stable.

Variable INTER_LINEAR : cv2.interpolation_method.

Lemma step_desired_width (o : op) :
  keeps (same desired_width) (step INTER_LINEAR o).
Proof.
  destruct o; cbn [step];
    unfold updateImage, clearBuffers, showed_image_setColorTable;
    keeps_with (same_refl desired_width) (same_trans desired_width)
      ltac:(first [ apply repaint_same | apply paintEvent_same
                  | intro; reflexivity ]).
Qed.

Lemma step_grayscale_colortable (o : op) :
  keeps (same grayscale_colortable) (step INTER_LINEAR o).
Proof.
  destruct o; cbn [step];
    unfold updateImage, clearBuffers, showed_image_setColorTable;
    keeps_with (same_refl grayscale_colortable)
      (same_trans grayscale_colortable)
      ltac:(first [ apply repaint_same | apply paintEvent_same
                  | intro; reflexivity ]).
Qed.

Lemma step_stays_present (o : op) :
  keeps stays_present (step INTER_LINEAR o).
Proof.
  destruct o; cbn [step];
    unfold updateImage, clearBuffers, showed_image_setColorTable;
    keeps_with stays_present_refl stays_present_trans
      ltac:(first
              [ intros w H; rewrite (repaint_same showed_image w); exact H
              | intros w H; rewrite (paintEvent_same showed_image w); exact H
              | intros w H; exact H
              | intros w H; discriminate ]).
Qed.

End Stable.

(** ** Library facts *)

Lemma size_cons (d : N) (l : list N) (b : np.ndarray) :
  np.shape b = d :: l -> np.size b <> 0 -> d <> 0 /\ fold_right N.mul 1 l <> 0.
Proof.
  unfold np.size. intros ->. simpl. intros H.
  split; intros E; apply H; rewrite E.
  - reflexivity.
  - apply N.mul_0_r.
Qed.

Lemma QImage_of_data_Indexed8 (buf : np.ndarray) (w h : N) :
  w <> 0 -> h <> 0 ->
  Qt.QImage_of_data buf w h w Qt.Format_Indexed8 =
  Qt.Image (indexed_view (np.data buf) w h).
Proof.
  intros Hw Hh. unfold Qt.QImage_of_data.
  apply N.eqb_neq in Hw, Hh. rewrite Hw, Hh.
  change (Qt.depth Qt.Format_Indexed8) with 8.
  rewrite N.div_add_l by discriminate.
  change (7 / 8) with 0. rewrite N.add_0_r, N.ltb_irrefl. reflexivity.
Qed.

Lemma QImage_of_data_RGB888 (buf : np.ndarray) (w h : N) :
  w <> 0 -> h <> 0 ->
  Qt.QImage_of_data buf w h (3 * w) Qt.Format_RGB888 =
  Qt.Image (rgb_data (np.data buf) w h).
Proof.
  intros Hw Hh. unfold Qt.QImage_of_data.
  assert (H3 : 3 * w <> 0) by lia.
  apply N.eqb_neq in Hw, Hh, H3. rewrite Hw, Hh, H3.
  change (Qt.depth Qt.Format_RGB888) with 24.
  replace (w * 24) with (3 * w * 8) by lia.
  rewrite N.div_add_l by discriminate.
  change (7 / 8) with 0. rewrite N.add_0_r, N.ltb_irrefl. reflexivity.
Qed.

(** Setting the table of an indexed view leaves the image with its own
    aligned copy. *)
Lemma setColorTable_view (bytes : list cell) (dw dh : N) (table : list N) :
  Qt.setColorTable (Qt.Image (indexed_view bytes dw dh)) table
  = Qt.Image (gray_data bytes dw dh table).
Proof. reflexivity. Qed.

(** An aligned line holds the pixels of an indexed line. *)
Lemma aligned_ge (w : N) : w <= Qt.aligned_bytesPerLine w Qt.Format_Indexed8.
Proof.
  unfold Qt.aligned_bytesPerLine. change (Qt.depth Qt.Format_Indexed8) with 8.
  pose proof (N.div_mod (w * 8 + 31) 32) as Hd.
  pose proof (N.mod_lt (w * 8 + 31) 32) as Hm.
  lia.
Qed.

Section Lines.

Context {A : Type} (f : nat -> list A) (L : nat).
Hypothesis f_length : forall i, List.length (f i) = L.

Lemma flat_map_lines_length (n : nat) : forall start,
  List.length (flat_map f (seq start n)) = (n * L)%nat.
Proof.
  induction n as [|n IH]; intros start; [reflexivity|].
  cbn [seq flat_map]. rewrite length_app, f_length, IH. reflexivity.
Qed.

Lemma flat_map_lines_nth (n : nat) : forall start r c,
  (r < n)%nat -> (c < L)%nat ->
  nth_error (flat_map f (seq start n)) (r * L + c)
  = nth_error (f (start + r)%nat) c.
Proof.
  induction n as [|n IH]; intros start r c Hr Hc; [lia|].
  cbn [seq flat_map]. destruct r as [|r].
  - rewrite nth_error_app1 by (rewrite f_length; lia).
    rewrite Nat.add_0_r. reflexivity.
  - rewrite nth_error_app2 by (rewrite f_length; lia).
    rewrite f_length.
    replace (S r * L + c - L)%nat with (r * L + c)%nat by lia.
    rewrite IH by lia. f_equal. f_equal. lia.
Qed.

End Lines.

(** The lines of a copy are all there. *)
Lemma copy_line_length (d : Qt.QImageData) (i : nat) :
  List.length
    (firstn (N.to_nat (N.min (Qt.d_bytesPerLine d)
                         (Qt.aligned_bytesPerLine (Qt.d_width d)
                            (Qt.d_format d))))
       (Qt.scanLine d i) ++
     repeat None
       (N.to_nat (Qt.aligned_bytesPerLine (Qt.d_width d) (Qt.d_format d))
        - List.length
            (firstn (N.to_nat (N.min (Qt.d_bytesPerLine d)
                                 (Qt.aligned_bytesPerLine (Qt.d_width d)
                                    (Qt.d_format d))))
               (Qt.scanLine d i))))
  = N.to_nat (Qt.aligned_bytesPerLine (Qt.d_width d) (Qt.d_format d)).
Proof.
  rewrite length_app, repeat_length, length_firstn. lia.
Qed.

Lemma copy_length (d : Qt.QImageData) :
  List.length (Qt.bits (Qt.copy d))
  = N.to_nat (Qt.d_bytesPerLine (Qt.copy d) * Qt.d_height d).
Proof.
  unfold Qt.copy. cbn [Qt.bits Qt.d_bytesPerLine].
  rewrite (flat_map_lines_length _ _ (copy_line_length d)). lia.
Qed.

(** Pixel ([c], [r]) of what the indexed branch stores is byte
    [r * dw + c] of the bytes it was given. *)
Lemma gray_data_pixel (bytes : list cell) (dw dh : N) (table : list N)
    (r c : nat) :
  (r < N.to_nat dh)%nat -> (c < N.to_nat dw)%nat ->
  (r * N.to_nat dw + c < List.length bytes)%nat ->
  nth_error (Qt.bits (gray_data bytes dw dh table))
    (r * N.to_nat (Qt.aligned_bytesPerLine dw Qt.Format_Indexed8) + c)
  = nth_error bytes (r * N.to_nat dw + c).
Proof.
  intros Hr Hc Hlen.
  pose proof (aligned_ge dw) as Hal.
  unfold gray_data. cbn [Qt.bits]. unfold Qt.copy. cbn [Qt.bits].
  change (Qt.d_width (indexed_view bytes dw dh)) with dw.
  change (Qt.d_height (indexed_view bytes dw dh)) with dh.
  change (Qt.d_format (indexed_view bytes dw dh)) with Qt.Format_Indexed8.
  change (Qt.d_bytesPerLine (indexed_view bytes dw dh)) with dw.
  pose proof (copy_line_length (indexed_view bytes dw dh)) as Hline.
  change (Qt.d_width (indexed_view bytes dw dh)) with dw in Hline.
  change (Qt.d_format (indexed_view bytes dw dh)) with Qt.Format_Indexed8
    in Hline.
  change (Qt.d_bytesPerLine (indexed_view bytes dw dh)) with dw in Hline.
  rewrite (flat_map_lines_nth _ _ Hline) by lia.
  cbn [Nat.add]. unfold Qt.scanLine.
  change (Qt.d_bytesPerLine (indexed_view bytes dw dh)) with dw.
  change (Qt.bits (indexed_view bytes dw dh)) with bytes.
  rewrite N.min_l by exact Hal.
  rewrite nth_error_app1.
  - rewrite !nth_error_firstn.
    assert (Hlt : (c <? N.to_nat dw)%nat = true) by (apply Nat.ltb_lt; lia).
    rewrite Hlt. apply nth_error_skipn.
  - rewrite !length_firstn, length_skipn. lia.
Qed.

(** Element [k] of the result holds the red, green and blue bytes of
    element [k] of a blue-green-red source, in that order. *)
Lemma bgr2rgb_element (k : nat) : forall l : list cell,
  (3 * k + 2 < List.length l)%nat ->
  nth_error (cv2.bgr2rgb false l) (3 * k) = nth_error l (3 * k + 2) /\
  nth_error (cv2.bgr2rgb false l) (3 * k + 1) = nth_error l (3 * k + 1) /\
  nth_error (cv2.bgr2rgb false l) (3 * k + 2) = nth_error l (3 * k).
Proof.
  induction k as [|k IH]; intros [|b [|g [|r rest]]] Hlen;
    simpl in Hlen; try lia.
  - repeat split.
  - replace (3 * S k)%nat with (S (S (S (3 * k)))) by lia.
    cbn [cv2.bgr2rgb Nat.add nth_error]. apply IH. lia.
Qed.

(** Element [k] of the result holds red, green, blue of element [k] of a
    blue-green-red-alpha source; the alpha byte is dropped. *)
Lemma bgra2rgb_element (k : nat) : forall l : list cell,
  (4 * k + 3 < List.length l)%nat ->
  nth_error (cv2.bgr2rgb true l) (3 * k) = nth_error l (4 * k + 2) /\
  nth_error (cv2.bgr2rgb true l) (3 * k + 1) = nth_error l (4 * k + 1) /\
  nth_error (cv2.bgr2rgb true l) (3 * k + 2) = nth_error l (4 * k).
Proof.
  induction k as [|k IH]; intros [|b [|g [|r [|a rest]]]] Hlen;
    simpl in Hlen; try lia.
  - repeat split.
  - replace (3 * S k)%nat with (S (S (S (3 * k)))) by lia.
    replace (4 * S k)%nat with (S (S (S (S (4 * k))))) by lia.
    cbn [cv2.bgr2rgb Nat.add nth_error]. apply IH. lia.
Qed.

Lemma bgr2rgb_length (alpha : bool) (n : nat) : forall l : list cell,
  List.length l = (n * (if alpha then 4 else 3))%nat ->
  List.length (cv2.bgr2rgb alpha l) = (3 * n)%nat.
Proof.
  induction n as [|n IH]; intros l Hl.
  - destruct l; [reflexivity | discriminate Hl].
  - destruct alpha.
    + destruct l as [|b [|g [|r [|a rest]]]]; try discriminate Hl.
      cbn [cv2.bgr2rgb List.length]. rewrite (IH rest); [lia|].
      cbn in Hl. lia.
    + destruct l as [|b [|g [|r rest]]]; try discriminate Hl.
      cbn [cv2.bgr2rgb List.length]. rewrite (IH rest); [lia|].
      cbn in Hl. lia.
Qed.

(** The table built by [__init__]. *)
Lemma palette_length :
  List.length (grayscale_colortable (self new_widget)) = 256%nat.
Proof. reflexivity. Qed.

Lemma palette_gray_entries :
  forallb (gray_entry (grayscale_colortable (self new_widget))) (seq 0 256)
  = true.
Proof. vm_compute. reflexivity. Qed.

Lemma palette_entry (i : N) :
  i < 256 ->
  nth_error (grayscale_colortable (self new_widget)) (N.to_nat i)
    = Some (Qt.qRgb i i i) /\
  Qt.qRed (Qt.qRgb i i i) = i /\
  Qt.qGreen (Qt.qRgb i i i) = i /\
  Qt.qBlue (Qt.qRgb i i i) = i.
Proof.
  intros Hi.
  pose proof palette_gray_entries as H.
  rewrite forallb_forall in H.
  specialize (H (N.to_nat i)).
  assert (Hin : In (N.to_nat i) (seq 0 256)) by (apply in_seq; lia).
  apply H in Hin. unfold gray_entry in Hin.
  rewrite N2Nat.id in Hin.
  destruct (nth_error _ _) as [c|]; [|discriminate].
  rewrite !andb_true_iff in Hin. destruct Hin as [[[Hc Hr] Hg] Hb].
  apply N.eqb_eq in Hc, Hr, Hg, Hb. subst c. auto.
Qed.

(** What the two branches store has one of the two layouts. *)
Lemma gray_data_layout (bytes : list cell) (dw dh : N) (table : list N) :
  dw <> 0 -> dh <> 0 -> wrapped_layout table (gray_data bytes dw dh table).
Proof.
  intros Hw Hh. unfold wrapped_layout.
  split; [cbn; lia|]. split; [cbn; lia|]. left.
  split; [reflexivity|]. split; [reflexivity|].
  split; [|split; reflexivity].
  unfold gray_data. cbn [Qt.bits Qt.d_bytesPerLine Qt.d_height].
  apply (copy_length (indexed_view bytes dw dh)).
Qed.

Lemma rgb_data_layout (bytes : list cell) (w h : N) (table : list N) :
  w <> 0 -> h <> 0 -> wrapped_layout table (rgb_data bytes w h).
Proof.
  intros Hw Hh. unfold wrapped_layout.
  split; [cbn; lia|]. split; [cbn; lia|]. right. repeat split.
Qed.

(** ** What [updateImage] does, by the shape of the buffer *)

(** Storing an image and repainting. *)
Lemma store_and_repaint (h wd : N) (img : Qt.QImage) (w : world) :
  let m := setFixedSize h wd ;;; set_showed_image (Some img) ;;; repaint in
  result m w = Return tt /\
  showed_image (self (exec m w)) = Some img /\
  fixed_size (self (exec m w))
    = Some (N.min h Qt.QWIDGETSIZE_MAX, N.min wd Qt.QWIDGETSIZE_MAX) /\
  painter_calls (exec m w) =
    painter_calls w ++ (if visible (self w) then [blit img] else []) /\
  stdout (exec m w) = stdout w.
Proof.
  unfold result, exec. cbn -[N.min].
  destruct (visible (self w)); cbn -[N.min]; rewrite ?app_nil_r; auto.
Qed.

Lemma store_and_repaint_world (h wd : N) (img : Qt.QImage) (w : world) :
  let m := setFixedSize h wd ;;; set_showed_image (Some img) ;;; repaint in
  self (exec m w) =
    {| desired_width := desired_width (self w);
       showed_image := Some img;
       grayscale_colortable := grayscale_colortable (self w);
       fixed_size := Some (N.min h Qt.QWIDGETSIZE_MAX,
                           N.min wd Qt.QWIDGETSIZE_MAX);
       visible := visible (self w) |} /\
  canvas (exec m w) =
    canvas w ++
    (if visible (self w) && negb (Qt.isNull img) then [blit img] else []).
Proof.
  unfold exec. cbn -[N.min].
  destruct (visible (self w)); cbn -[N.min]; [|rewrite app_nil_r; auto].
  destruct (Qt.isNull img); cbn -[N.min]; rewrite ?app_nil_r; auto.
Qed.

Section Shapes.

Variable INTER_LINEAR : cv2.interpolation_method.

Local Arguments Qt.QImage_of_data : simpl never.
Local Arguments Qt.setColorTable : simpl never.
Local Arguments N.min : simpl never.
Local Arguments N.to_nat : simpl never.
Local Arguments N.mul : simpl never.

Lemma updateImage_empty (b : np.ndarray) :
  np.size b = 0 ->
  updateImage INTER_LINEAR b =
  print "Not updating image. The provided image is empty".
Proof. intros E. unfold updateImage. rewrite E. reflexivity. Qed.

Lemma updateImage_few_dims (b : np.ndarray) (w : world) :
  np.size b <> 0 -> (List.length (np.shape b) < 2)%nat ->
  updateImage INTER_LINEAR b w = (Raise IndexError, w).
Proof.
  intros Hz Hl. unfold updateImage.
  apply N.eqb_neq in Hz. rewrite Hz.
  destruct (np.shape b) as [|h [|wd rest]]; cbn in Hl; try lia;
    reflexivity.
Qed.

Lemma updateImage_gray (b : np.ndarray) (h wd : N) (w : world) :
  np.shape b = [h; wd] \/ np.shape b = [h; wd; 1] -> np.size b <> 0 ->
  updateImage INTER_LINEAR b w =
  (setFixedSize h wd ;;;
   set_showed_image
     (Some (Qt.Image
        (gray_data (INTER_LINEAR (gray_Mat b h wd) h wd) h wd
           (grayscale_colortable (self w))))) ;;;
   repaint) w.
Proof.
  intros Hs Hz.
  assert (Hd : h <> 0 /\ wd <> 0).
  { destruct Hs as [Hs | Hs];
      destruct (size_cons _ _ _ Hs Hz) as [Hh Hwd]; simpl in Hwd; lia. }
  destruct Hd as [Hh Hwd].
  unfold updateImage. apply N.eqb_neq in Hz. rewrite Hz.
  destruct h as [|ph]; [congruence|]. destruct wd as [|pw]; [congruence|].
  unfold cv2.resize, cv2.Mat_of_ndarray.
  destruct Hs as [Hs | Hs]; rewrite Hs; cbn;
    rewrite QImage_of_data_Indexed8 by discriminate;
    rewrite setColorTable_view; reflexivity.
Qed.

Lemma updateImage_color (b : np.ndarray) (h wd ch : N) (w : world) :
  np.shape b = [h; wd; ch] -> np.size b <> 0 -> ch = 3 \/ ch = 4 ->
  updateImage INTER_LINEAR b w =
  (setFixedSize h wd ;;;
   set_showed_image
     (Some (Qt.Image
              (rgb_data (cv2.bgr2rgb (ch =? 4) (np.data b)) h wd))) ;;;
   repaint) w.
Proof.
  intros Hs Hz Hch.
  destruct (size_cons _ _ _ Hs Hz) as [Hh Hwd]. simpl in Hwd.
  unfold updateImage. apply N.eqb_neq in Hz. rewrite Hz.
  destruct h as [|ph]; [congruence|]. destruct wd as [|pw]; [lia|].
  unfold cv2.resize, cv2.cvtColor_BGR2RGB, cv2.Mat_of_ndarray. rewrite Hs.
  destruct Hch as [-> | ->]; cbn;
    rewrite QImage_of_data_RGB888 by discriminate; reflexivity.
Qed.

(** Other channel counts pass the resize and fail in the conversion. *)
Lemma updateImage_other_channels (b : np.ndarray) (h wd ch : N) (w : world) :
  np.shape b = [h; wd; ch] -> np.size b <> 0 ->
  ch <= cv2.CV_CN_MAX -> ch <> 1 -> ch <> 3 -> ch <> 4 ->
  updateImage INTER_LINEAR b w =
  (Raise cv2_error, exec (setFixedSize h wd) w).
Proof.
  intros Hs Hz Hmax C1 C3 C4.
  destruct (size_cons _ _ _ Hs Hz) as [Hh Hwd]. simpl in Hwd.
  destruct h as [|ph]; [congruence|]. destruct wd as [|pw]; [lia|].
  unfold updateImage. apply N.eqb_neq in Hz. rewrite Hz.
  unfold cv2.resize, cv2.cvtColor_BGR2RGB, cv2.Mat_of_ndarray. rewrite Hs.
  apply N.eqb_neq in C1, C3, C4. apply N.leb_le in Hmax. rewrite Hmax.
  cbn -[N.eqb N.leb].
  change (N.pos ph =? 0) with false. change (N.pos pw =? 0) with false.
  cbn -[N.eqb N.leb]. rewrite C1.
  cbn -[N.eqb N.leb]. rewrite C3, C4. reflexivity.
Qed.

Lemma no_matrix_None (b : np.ndarray) (s0 s1 s2 : N) (rest : list N) :
  np.shape b = s0 :: s1 :: s2 :: rest -> no_matrix_shape s2 rest ->
  cv2.Mat_of_ndarray b = None.
Proof.
  intros Hs Hn. unfold cv2.Mat_of_ndarray. rewrite Hs.
  destruct rest as [|x rest]; [|reflexivity].
  destruct Hn as [Hn | Hn]; [congruence|].
  apply N.leb_gt in Hn. rewrite Hn. reflexivity.
Qed.

(** With equal first two axes it is stored, as an image nobody wrote. *)
Lemma updateImage_nd_square (b : np.ndarray) (h s2 : N) (rest : list N)
    (w : world) :
  np.shape b = h :: h :: s2 :: rest -> no_matrix_shape s2 rest ->
  np.size b <> 0 ->
  updateImage INTER_LINEAR b w =
  (setFixedSize h h ;;;
   set_showed_image
     (Some (Qt.Image
        (gray_data (repeat None (N.to_nat (h * h))) h h
           (grayscale_colortable (self w))))) ;;;
   repaint) w.
Proof.
  intros Hs Hn Hz.
  destruct (size_cons _ _ _ Hs Hz) as [Hh _].
  pose proof (no_matrix_None b h h s2 rest Hs Hn) as Hnone.
  unfold updateImage. apply N.eqb_neq in Hz. rewrite Hz.
  destruct h as [|ph]; [congruence|].
  unfold cv2.resize. rewrite Hnone, Hs.
  cbn -[N.eqb]. rewrite !N.eqb_refl.
  change (N.pos ph =? 0) with false. cbn.
  rewrite QImage_of_data_Indexed8 by discriminate.
  rewrite setColorTable_view. reflexivity.
Qed.

(** With different first two axes the resize refuses it. *)
Lemma updateImage_nd_other (b : np.ndarray) (s0 s1 s2 : N) (rest : list N)
    (w : world) :
  np.shape b = s0 :: s1 :: s2 :: rest -> no_matrix_shape s2 rest ->
  np.size b <> 0 -> s0 <> s1 ->
  updateImage INTER_LINEAR b w = (Raise cv2_error, w).
Proof.
  intros Hs Hn Hz Hne.
  destruct (size_cons _ _ _ Hs Hz) as [H0 Hr]. cbn in Hr.
  assert (H1 : s1 <> 0) by lia.
  pose proof (no_matrix_None b s0 s1 s2 rest Hs Hn) as Hnone.
  unfold updateImage. apply N.eqb_neq in Hz. rewrite Hz.
  destruct s0 as [|p0]; [congruence|]. destruct s1 as [|p1]; [congruence|].
  unfold cv2.resize. rewrite Hnone, Hs.
  apply N.eqb_neq in Hne.
  cbn -[N.eqb]. rewrite Hne.
  change (N.pos p0 =? 0) with false. change (N.pos p1 =? 0) with false.
  reflexivity.
Qed.

(** The five ways a submit can go, by the buffer alone. *)
Lemma updateImage_cases (b : np.ndarray) :
  (np.size b = 0) \/
  (np.size b <> 0 /\ (List.length (np.shape b) < 2)%nat /\
   forall w, updateImage INTER_LINEAR b w = (Raise IndexError, w)) \/
  (np.size b <> 0 /\ (2 <= List.length (np.shape b))%nat /\
   forall w, updateImage INTER_LINEAR b w = (Raise cv2_error, w)) \/
  (np.size b <> 0 /\ (2 <= List.length (np.shape b))%nat /\
   exists h wd, h <> 0 /\ wd <> 0 /\
     forall w, updateImage INTER_LINEAR b w =
               (Raise cv2_error, exec (setFixedSize h wd) w)) \/
  (np.size b <> 0 /\
   exists (f : list N -> Qt.QImageData) (h wd : N) (rest : list N),
     np.shape b = h :: wd :: rest /\ h <> 0 /\ wd <> 0 /\
     (forall t, wrapped_layout t (f t) /\
                Qt.d_width (f t) = h /\ Qt.d_height (f t) = wd) /\
     forall w, updateImage INTER_LINEAR b w =
       (setFixedSize h wd ;;;
        set_showed_image
          (Some (Qt.Image (f (grayscale_colortable (self w))))) ;;;
        repaint) w).
Proof.
  destruct (N.eq_dec (np.size b) 0) as [Hz | Hz]; [left; exact Hz|].
  right.
  destruct (np.shape b) as [|h [|wd [|ch rest]]] eqn:Hs.
  1, 2: left; split; [exact Hz|]; split; [cbn; lia|];
        intros w; apply updateImage_few_dims; [exact Hz | rewrite Hs; cbn; lia].
  - (* two axes *)
    destruct (size_cons _ _ _ Hs Hz) as [Hh Hwd]. simpl in Hwd.
    assert (Hwd' : wd <> 0) by lia.
    do 3 right. split; [exact Hz|].
    exists (gray_data (INTER_LINEAR (gray_Mat b h wd) h wd) h wd), h, wd, [].
    repeat (split; [assumption || reflexivity|]). split.
    + intros t. split; [apply gray_data_layout; assumption|].
      split; reflexivity.
    + intros w. apply updateImage_gray; auto.
  - (* three axes or more *)
    destruct (size_cons _ _ _ Hs Hz) as [Hh Hwd]. simpl in Hwd.
    assert (Hwd' : wd <> 0) by lia.
    assert (Hnd : no_matrix_shape ch rest ->
      (np.size b <> 0 /\ (2 <= List.length (h :: wd :: ch :: rest))%nat /\
       forall w, updateImage INTER_LINEAR b w = (Raise cv2_error, w)) \/
      (np.size b <> 0 /\
       exists (f : list N -> Qt.QImageData) (h0 wd0 : N) (rest0 : list N),
         h :: wd :: ch :: rest = h0 :: wd0 :: rest0 /\ h0 <> 0 /\ wd0 <> 0 /\
         (forall t, wrapped_layout t (f t) /\
                    Qt.d_width (f t) = h0 /\ Qt.d_height (f t) = wd0) /\
         forall w, updateImage INTER_LINEAR b w =
           (setFixedSize h0 wd0 ;;;
            set_showed_image
              (Some (Qt.Image (f (grayscale_colortable (self w))))) ;;;
            repaint) w)).
    { intros Hn. destruct (N.eq_dec h wd) as [<- | Hne].
      - right. split; [exact Hz|].
        exists (gray_data (repeat None (N.to_nat (h * h))) h h), h, h,
          (ch :: rest).
        repeat (split; [assumption || reflexivity|]). split.
        + intros t. split; [apply gray_data_layout; assumption|].
          split; reflexivity.
        + intros w. apply (updateImage_nd_square b h ch rest); auto.
      - left. split; [exact Hz|]. split; [cbn; lia|].
        intros w. apply (updateImage_nd_other b h wd ch rest); auto. }
    destruct rest as [|x rest].
    2: { destruct Hnd as [H | H]; [left; discriminate | |];
           [right; left; exact H | do 3 right; exact H]. }
    destruct (N.le_gt_cases ch cv2.CV_CN_MAX) as [Hmax | Hmax].
    2: { destruct Hnd as [H | H]; [right; exact Hmax | |];
           [right; left; exact H | do 3 right; exact H]. }
    clear Hnd.
    destruct (N.eq_dec ch 1) as [-> | C1].
    { do 3 right. split; [exact Hz|].
      exists (gray_data (INTER_LINEAR (gray_Mat b h wd) h wd) h wd),
        h, wd, [1].
      repeat (split; [assumption || reflexivity|]). split.
      - intros t. split; [apply gray_data_layout; assumption|].
        split; reflexivity.
      - intros w. apply updateImage_gray; auto. }
    assert (Hcol : ch = 3 \/ ch = 4 ->
      np.size b <> 0 /\
      exists (f : list N -> Qt.QImageData) (h0 wd0 : N) (rest0 : list N),
        [h; wd; ch] = h0 :: wd0 :: rest0 /\ h0 <> 0 /\ wd0 <> 0 /\
        (forall t, wrapped_layout t (f t) /\
                   Qt.d_width (f t) = h0 /\ Qt.d_height (f t) = wd0) /\
        forall w, updateImage INTER_LINEAR b w =
          (setFixedSize h0 wd0 ;;;
           set_showed_image
             (Some (Qt.Image (f (grayscale_colortable (self w))))) ;;;
           repaint) w).
    { intros Hch. split; [exact Hz|].
      exists (fun _ => rgb_data (cv2.bgr2rgb (ch =? 4) (np.data b)) h wd),
        h, wd, [ch].
      repeat (split; [assumption || reflexivity|]). split.
      - intros t. split; [apply rgb_data_layout; assumption|].
        split; reflexivity.
      - intros w. apply (updateImage_color b h wd ch); auto. }
    destruct (N.eq_dec ch 3) as [C3 | C3]; [do 3 right; auto|].
    destruct (N.eq_dec ch 4) as [C4 | C4]; [do 3 right; auto|].
    right; right; left. split; [exact Hz|]. split; [cbn; lia|].
    exists h, wd. split; [exact Hh|]. split; [exact Hwd'|].
    intros w. apply (updateImage_other_channels b h wd ch); auto.
Qed.

(** An accepted buffer is stored as an image that the buffer and the
    colour table determine; its width is the length of the buffer's first
    axis, its height the length of the second. *)
Lemma accepted_stored (b : np.ndarray) (w : world) :
  accepted INTER_LINEAR b w ->
  exists (f : list N -> Qt.QImageData) (h wd : N) (rest : list N),
    np.shape b = h :: wd :: rest /\ h <> 0 /\ wd <> 0 /\
    (forall t, wrapped_layout t (f t) /\
               Qt.d_width (f t) = h /\ Qt.d_height (f t) = wd) /\
    forall w0,
      updateImage INTER_LINEAR b w0 =
      (setFixedSize h wd ;;;
       set_showed_image
         (Some (Qt.Image (f (grayscale_colortable (self w0))))) ;;;
       repaint) w0.
Proof.
  intros [Hz Hr]. unfold result in Hr.
  destruct (updateImage_cases b)
    as [Hz' | [(_ & _ & Hu) | [(_ & _ & Hu)
        | [(_ & _ & h & wd & _ & _ & Hu) | (_ & H)]]]].
  - congruence.
  - rewrite Hu in Hr. discriminate Hr.
  - rewrite Hu in Hr. discriminate Hr.
  - rewrite Hu in Hr. discriminate Hr.
  - exact H.
Qed.

(** A submitted non-empty buffer is stored or refused with an exception
    other than ZeroDivisionError. *)
Lemma updateImage_outcome (b : np.ndarray) (w : world) :
  np.size b <> 0 ->
  result (updateImage INTER_LINEAR b) w = Return tt \/
  exists e,
    e <> ZeroDivisionError /\
    result (updateImage INTER_LINEAR b) w = Raise e.
Proof.
  intros Hz. unfold result.
  destruct (updateImage_cases b)
    as [Hz' | [(_ & _ & Hu) | [(_ & _ & Hu)
        | [(_ & _ & h & wd & _ & _ & Hu)
          | (_ & f & h & wd & rest & _ & _ & _ & _ & Hu)]]]].
  - congruence.
  - right. exists IndexError. rewrite Hu. split; [discriminate|reflexivity].
  - right. exists cv2_error. rewrite Hu. split; [discriminate|reflexivity].
  - right. exists cv2_error. rewrite Hu. split; [discriminate|reflexivity].
  - left. rewrite Hu.
    destruct (store_and_repaint h wd
                (Qt.Image (f (grayscale_colortable (self w)))) w) as [Hr _].
    exact Hr.
Qed.

End Shapes.

(** ** The widget's invariants and operations *)

Section Claims.

Variable INTER_LINEAR : cv2.interpolation_method.

Lemma reachable_desired_width (w : world) :
  reachable INTER_LINEAR w -> desired_width (self w) = 480.
Proof.
  induction 1 as [|o w Hw IH]; [reflexivity|].
  rewrite (step_desired_width INTER_LINEAR o w). exact IH.
Qed.

Lemma reachable_colortable (w : world) :
  reachable INTER_LINEAR w ->
  grayscale_colortable (self w) = grayscale_colortable (self new_widget).
Proof.
  induction 1 as [|o w Hw IH]; [reflexivity|].
  rewrite (step_grayscale_colortable INTER_LINEAR o w). exact IH.
Qed.

Lemma reachable_present (w : world) :
  reachable INTER_LINEAR w -> showed_image (self w) <> None.
Proof.
  induction 1 as [|o w Hw IH]; [discriminate|].
  apply (step_stays_present INTER_LINEAR o w), IH.
Qed.

Lemma run_cons (o : op) (ops : list op) (w : world) :
  run INTER_LINEAR (o :: ops) w =
  run INTER_LINEAR ops (exec (step INTER_LINEAR o) w).
Proof. reflexivity. Qed.

(** Operations that store nothing repeat the blit of the stored image. *)
Lemma run_stores_nothing (img : Qt.QImage) (ops : list op) :
  forallb stores_nothing ops = true ->
  forall w, showed_image (self w) = Some img ->
  showed_image (self (run INTER_LINEAR ops w)) = Some img /\
  exists n,
    painter_calls (run INTER_LINEAR ops w)
    = painter_calls w ++ repeat (blit img) n.
Proof.
  induction ops as [|o ops IH]; intros Hops w Hw.
  - split; [exact Hw|]. exists 0%nat. cbn. rewrite app_nil_r. reflexivity.
  - cbn in Hops. apply andb_true_iff in Hops. destruct Hops as [Ho Hops].
    rewrite run_cons.
    assert (Hs :
      showed_image (self (exec (step INTER_LINEAR o) w)) = Some img /\
      exists n, painter_calls (exec (step INTER_LINEAR o) w) =
                painter_calls w ++ repeat (blit img) n).
    { destruct o; try discriminate Ho; unfold exec; cbn; try rewrite Hw; cbn;
        (split; [first [exact Hw | reflexivity]|]).
      - exists 1%nat. reflexivity.
      - exists 0%nat. cbn. rewrite app_nil_r. reflexivity.
      - exists 0%nat. cbn. rewrite app_nil_r. reflexivity. }
    destruct Hs as [Hs [n Hn]].
    destruct (IH Hops _ Hs) as [Hs' [n' Hn']].
    split; [exact Hs'|]. exists (n + n')%nat.
    rewrite Hn', Hn, <- app_assoc, repeat_app. reflexivity.
Qed.

(** ** The specification, claim by claim *)

(** C1, as the code behaves: for a non-empty 2-D buffer of [h] rows and
    [wd] columns, [updateImage] returns and stores an image whose width is
    [h] and whose height is [wd], the buffer's own two dimensions taken as
    (width, height), and fixes the widget to that size, as far as the
    toolkit lets a widget grow.  The stored width is the buffer's row
    count, not [desired_width]. *)
Theorem updateImage_gray_size (b : np.ndarray) (h wd : N) (w : world) :
  np.shape b = [h; wd] -> np.size b <> 0 ->
  result (updateImage INTER_LINEAR b) w = Return tt /\
  fixed_size (self (exec (updateImage INTER_LINEAR b) w))
    = Some (N.min h Qt.QWIDGETSIZE_MAX, N.min wd Qt.QWIDGETSIZE_MAX) /\
  exists img,
    showed_image (self (exec (updateImage INTER_LINEAR b) w)) = Some img /\
    Qt.width img = h /\ Qt.height img = wd.
Proof.
  intros Hs Hz.
  unfold result, exec.
  rewrite (updateImage_gray INTER_LINEAR b h wd w (or_introl Hs) Hz).
  match goal with
  | |- context [set_showed_image (Some ?i)] =>
      destruct (store_and_repaint h wd i w) as (Hr & Hi & Hf & _)
  end.
  split; [exact Hr|]. split; [exact Hf|].
  eexists. split; [exact Hi|]. split; reflexivity.
Qed.

(** C2, as the code behaves: for a non-empty buffer of [h] rows, [wd]
    columns and three channels, [updateImage] returns and stores a
    direct-colour image of width [h], height [wd] and [3 * h] bytes per
    line whose bytes are the channel-swapped bytes of the submitted buffer
    itself; the interpolation has no part in them.  Element [k] of the
    stored bytes holds red, green, blue of element [k] of the buffer.  The
    widget is fixed to (h, wd), as far as the toolkit lets it grow. *)
Theorem updateImage_color_stored (b : np.ndarray) (h wd : N) (w : world) :
  np.shape b = [h; wd; 3] -> np.size b <> 0 ->
  result (updateImage INTER_LINEAR b) w = Return tt /\
  fixed_size (self (exec (updateImage INTER_LINEAR b) w))
    = Some (N.min h Qt.QWIDGETSIZE_MAX, N.min wd Qt.QWIDGETSIZE_MAX) /\
  showed_image (self (exec (updateImage INTER_LINEAR b) w)) =
    Some (Qt.Image (rgb_data (cv2.bgr2rgb false (np.data b)) h wd)) /\
  forall k, (3 * k + 2 < List.length (np.data b))%nat ->
    nth_error (cv2.bgr2rgb false (np.data b)) (3 * k)
      = nth_error (np.data b) (3 * k + 2) /\
    nth_error (cv2.bgr2rgb false (np.data b)) (3 * k + 1)
      = nth_error (np.data b) (3 * k + 1) /\
    nth_error (cv2.bgr2rgb false (np.data b)) (3 * k + 2)
      = nth_error (np.data b) (3 * k).
Proof.
  intros Hs Hz.
  unfold result, exec.
  rewrite (updateImage_color INTER_LINEAR b h wd 3 w Hs Hz (or_introl eq_refl)).
  change (3 =? 4) with false.
  destruct (store_and_repaint h wd
              (Qt.Image (rgb_data (cv2.bgr2rgb false (np.data b)) h wd)) w)
    as (Hr & Hi & Hf & _).
  split; [exact Hr|]. split; [exact Hf|]. split; [exact Hi|].
  intros k Hk. apply bgr2rgb_element, Hk.
Qed.

(** C3, amended: when the widget shows no image, [paintEvent] returns,
    paints nothing on the canvas and changes neither the widget nor the
    output; it makes no [drawPixmap] call when the field is None, and
    exactly one, of a null pixmap at (0, 0) with width 0 and height 0,
    when the field holds the empty placeholder. *)
Theorem paintEvent_no_image (w : world) :
  has_no_image w = true ->
  result paintEvent w = Return tt /\
  self (exec paintEvent w) = self w /\
  canvas (exec paintEvent w) = canvas w /\
  stdout (exec paintEvent w) = stdout w /\
  painter_calls (exec paintEvent w) =
    painter_calls w ++
    match showed_image (self w) with
    | None => []
    | Some _ => [Qt.DrawPixmap 0 0 0 0 (Qt.PixmapOf Qt.NullImage)]
    end.
Proof.
  unfold has_no_image, result, exec, paintEvent, bind, get.
  cbn. destruct (showed_image (self w)) as [[|d]|]; cbn; intros H;
    try discriminate H; rewrite ?app_nil_r; auto.
Qed.

(** C4: for an empty buffer [updateImage] returns without an exception,
    prints its notice, and leaves the widget (stored image, fixed size and
    every other field), the painter calls and the canvas as they were. *)
Theorem updateImage_empty_unchanged (b : np.ndarray) (w : world) :
  np.size b = 0 ->
  result (updateImage INTER_LINEAR b) w = Return tt /\
  self (exec (updateImage INTER_LINEAR b) w) = self w /\
  painter_calls (exec (updateImage INTER_LINEAR b) w) = painter_calls w /\
  canvas (exec (updateImage INTER_LINEAR b) w) = canvas w /\
  stdout (exec (updateImage INTER_LINEAR b) w) =
    stdout w ++ ["Not updating image. The provided image is empty"%string].
Proof.
  intros Hz. rewrite (updateImage_empty INTER_LINEAR b Hz).
  repeat split.
Qed.

(** C5: [clearBuffers] returns and leaves the empty placeholder in the
    field, whatever was there; a second call leaves the widget, the canvas
    and the output as the first one did. *)
Theorem clearBuffers_idempotent (w : world) :
  result clearBuffers w = Return tt /\
  showed_image (self (exec clearBuffers w)) = Some Qt.QImage_empty /\
  has_no_image (exec clearBuffers w) = true /\
  self (exec clearBuffers (exec clearBuffers w))
    = self (exec clearBuffers w) /\
  canvas (exec clearBuffers (exec clearBuffers w))
    = canvas (exec clearBuffers w) /\
  stdout (exec clearBuffers (exec clearBuffers w))
    = stdout (exec clearBuffers w).
Proof.
  unfold has_no_image, result, exec, clearBuffers, repaint, paintEvent.
  cbn. destruct (visible (self w)); cbn; repeat split.
Qed.

(** C6: in every reachable state the colour table is the one [__init__]
    built; it has 256 entries, entry [i] is [qRgb(i, i, i)] with red,
    green and blue all [i]; no operation changes it; and a non-empty 2-D
    buffer of [h] rows and [wd] columns is stored as an indexed image with
    this table as its colour table: [h] wide, [wd] high, in lines of its
    own aligned to 32 bits, where pixel ([c], [r]) is byte [r * h + c] of
    the resized buffer. *)
Theorem grayscale_colortable_fixed (w : world) :
  reachable INTER_LINEAR w ->
  grayscale_colortable (self w) = grayscale_colortable (self new_widget) /\
  List.length (grayscale_colortable (self w)) = 256%nat /\
  (forall i, i < 256 ->
     nth_error (grayscale_colortable (self w)) (N.to_nat i)
       = Some (Qt.qRgb i i i) /\
     Qt.qRed (Qt.qRgb i i i) = i /\
     Qt.qGreen (Qt.qRgb i i i) = i /\
     Qt.qBlue (Qt.qRgb i i i) = i) /\
  (forall o,
     grayscale_colortable (self (exec (step INTER_LINEAR o) w))
       = grayscale_colortable (self w)) /\
  (forall b h wd, np.shape b = [h; wd] -> np.size b <> 0 ->
     exists d,
       showed_image (self (exec (updateImage INTER_LINEAR b) w))
         = Some (Qt.Image d) /\
       Qt.d_format d = Qt.Format_Indexed8 /\
       Qt.colorTable d = grayscale_colortable (self w) /\
       Qt.d_width d = h /\ Qt.d_height d = wd /\
       Qt.d_bytesPerLine d = (h * 8 + 31) / 32 * 4 /\
       List.length (Qt.bits d) = N.to_nat (Qt.d_bytesPerLine d * wd) /\
       forall r c : nat,
         (r < N.to_nat wd)%nat -> (c < N.to_nat h)%nat ->
         (r * N.to_nat h + c
          < List.length (INTER_LINEAR (gray_Mat b h wd) h wd))%nat ->
         nth_error (Qt.bits d) (r * N.to_nat (Qt.d_bytesPerLine d) + c)
         = nth_error (INTER_LINEAR (gray_Mat b h wd) h wd)
             (r * N.to_nat h + c)).
Proof.
  intros Hw. pose proof (reachable_colortable w Hw) as Ht.
  split; [exact Ht|]. rewrite Ht.
  split; [exact palette_length|].
  split; [exact palette_entry|].
  split;
    [ intros o; rewrite <- Ht;
      apply (step_grayscale_colortable INTER_LINEAR o w) | ].
  intros b h wd Hs Hz. unfold exec.
  rewrite (updateImage_gray INTER_LINEAR b h wd w (or_introl Hs) Hz).
  rewrite <- Ht.
  set (bytes := INTER_LINEAR (gray_Mat b h wd) h wd).
  set (d := gray_data bytes h wd (grayscale_colortable (self w))).
  destruct (store_and_repaint h wd (Qt.Image d) w) as (_ & Hi & _).
  destruct (size_cons _ _ _ Hs Hz) as [Hh Hwd]. cbn in Hwd.
  assert (Hwd' : wd <> 0) by lia.
  destruct (gray_data_layout bytes h wd (grayscale_colortable (self w))
              Hh Hwd') as (_ & _ & [(_ & _ & Hlen & _) | (Hf & _)]);
    [|discriminate Hf].
  exists d. split; [exact Hi|].
  repeat (split; [reflexivity|]).
  split; [exact Hlen|].
  intros r c Hr Hc Hb.
  apply (gray_data_pixel bytes h wd (grayscale_colortable (self w)) r c
           Hr Hc Hb).
Qed.

(** C7: after two accepted submits in a row the stored image is the one
    made from the second buffer: it has data, its width and height are
    the lengths of the second buffer's first two axes, and it is the
    indexed image over the resized second buffer, or the direct-colour
    image over the converted second buffer; it is the same whatever
    reachable state the second buffer is submitted in.  The repaint of
    the second submit blits that image, and so does every later paint
    until the next submit or clear. *)
Theorem updateImage_replaces (w w' : world) (b1 b2 : np.ndarray) :
  reachable INTER_LINEAR w -> reachable INTER_LINEAR w' ->
  accepted INTER_LINEAR b1 w ->
  accepted INTER_LINEAR b2 (exec (updateImage INTER_LINEAR b1) w) ->
  exists (d2 : Qt.QImageData) (h wd : N) (rest : list N),
    np.shape b2 = h :: wd :: rest /\
    showed_image
      (self (exec (updateImage INTER_LINEAR b2)
               (exec (updateImage INTER_LINEAR b1) w)))
      = Some (Qt.Image d2) /\
    Qt.d_width d2 = h /\ Qt.d_height d2 = wd /\ 0 < h /\ 0 < wd /\
    (rest = [] \/ rest = [1] ->
     d2 = gray_data (INTER_LINEAR (gray_Mat b2 h wd) h wd) h wd
            (grayscale_colortable (self new_widget))) /\
    (rest = [3] ->
     d2 = rgb_data (cv2.bgr2rgb false (np.data b2)) h wd) /\
    (rest = [4] ->
     d2 = rgb_data (cv2.bgr2rgb true (np.data b2)) h wd) /\
    showed_image (self (exec (updateImage INTER_LINEAR b2) w'))
      = Some (Qt.Image d2) /\
    painter_calls (exec (updateImage INTER_LINEAR b2)
                     (exec (updateImage INTER_LINEAR b1) w)) =
      painter_calls (exec (updateImage INTER_LINEAR b1) w) ++
      (if visible (self (exec (updateImage INTER_LINEAR b1) w))
       then [blit (Qt.Image d2)] else []) /\
    forall ops, forallb stores_nothing ops = true ->
      exists n,
        painter_calls
          (run INTER_LINEAR ops
             (exec (updateImage INTER_LINEAR b2)
                (exec (updateImage INTER_LINEAR b1) w))) =
        painter_calls (exec (updateImage INTER_LINEAR b2)
                         (exec (updateImage INTER_LINEAR b1) w)) ++
        repeat (blit (Qt.Image d2)) n.
Proof.
  intros Hw Hw' H1 H2.
  set (w1 := exec (updateImage INTER_LINEAR b1) w) in *.
  assert (Hw1 : reachable INTER_LINEAR w1)
    by (apply (reach_step INTER_LINEAR (Submit b1)); exact Hw).
  destruct (accepted_stored INTER_LINEAR b2 w1 H2)
    as (f & h & wd & rest & Hs & Hh & Hwd & Hf & Hu).
  pose proof (reachable_colortable w1 Hw1) as Ht1.
  pose proof (reachable_colortable w' Hw') as Ht'.
  set (table := grayscale_colortable (self new_widget)) in *.
  set (d2 := f table).
  destruct (store_and_repaint h wd (Qt.Image d2) w1) as (_ & Hi & _ & Hp & _).
  destruct (store_and_repaint h wd (Qt.Image d2) w') as (_ & Hi' & _).
  destruct H2 as [Hz2 _].
  assert (Hgray : rest = [] \/ rest = [1] ->
            d2 = gray_data (INTER_LINEAR (gray_Mat b2 h wd) h wd) h wd table).
  { intros Hrest.
    assert (Hsh : np.shape b2 = [h; wd] \/ np.shape b2 = [h; wd; 1])
      by (destruct Hrest as [-> | ->]; auto).
    pose proof (updateImage_gray INTER_LINEAR b2 h wd w1 Hsh Hz2) as Hg.
    rewrite (Hu w1), Ht1 in Hg.
    match type of Hg with
    | ?m1 w1 = ?m2 w1 =>
        assert (Hsi : showed_image (self (exec m1 w1))
                      = showed_image (self (exec m2 w1)))
          by (unfold exec; rewrite Hg; reflexivity)
    end.
    change (f table) with d2 in Hsi. rewrite Hi in Hsi.
    match type of Hsi with
    | _ = showed_image (self (exec (_ ;;; set_showed_image (Some ?i) ;;; _) _))
      => destruct (store_and_repaint h wd i w1) as (_ & Hi2 & _)
    end.
    rewrite Hi2 in Hsi. injection Hsi as Hsi. exact Hsi. }
  assert (Hcol : forall ch, ch = 3 \/ ch = 4 -> rest = [ch] ->
            d2 = rgb_data (cv2.bgr2rgb (ch =? 4) (np.data b2)) h wd).
  { intros ch Hch Hrc.
    rewrite Hrc in Hs.
    pose proof (updateImage_color INTER_LINEAR b2 h wd ch w1 Hs Hz2 Hch) as Hg.
    rewrite (Hu w1), Ht1 in Hg.
    match type of Hg with
    | ?m1 w1 = ?m2 w1 =>
        assert (Hsi : showed_image (self (exec m1 w1))
                      = showed_image (self (exec m2 w1)))
          by (unfold exec; rewrite Hg; reflexivity)
    end.
    change (f table) with d2 in Hsi. rewrite Hi in Hsi.
    match type of Hsi with
    | _ = showed_image (self (exec (_ ;;; set_showed_image (Some ?i) ;;; _) _))
      => destruct (store_and_repaint h wd i w1) as (_ & Hi2 & _)
    end.
    rewrite Hi2 in Hsi. injection Hsi as Hsi. exact Hsi. }
  exists d2, h, wd, rest.
  destruct (Hf table) as (_ & Hdw & Hdh).
  unfold exec in *. rewrite (Hu w1), (Hu w'), Ht1, Ht'.
  split; [exact Hs|]. split; [exact Hi|].
  split; [exact Hdw|]. split; [exact Hdh|].
  split; [lia|]. split; [lia|].
  split; [exact Hgray|].
  split; [exact (Hcol 3 (or_introl eq_refl))|].
  split; [exact (Hcol 4 (or_intror eq_refl))|].
  split; [exact Hi'|]. split; [exact Hp|].
  intros ops Hops.
  destruct (run_stores_nothing (Qt.Image d2) ops Hops _ Hi) as [_ Hn].
  exact Hn.
Qed.

(** C8: [desired_width] is 480 when [__init__] is done and in every
    reachable state, and stays 480 through every operation. *)
Theorem desired_width_fixed (w : world) :
  reachable INTER_LINEAR w ->
  desired_width (self new_widget) = 480 /\
  desired_width (self w) = 480 /\
  forall o, desired_width (self (exec (step INTER_LINEAR o) w)) = 480.
Proof.
  intros Hw. split; [reflexivity|]. split.
  - apply reachable_desired_width, Hw.
  - intros o. apply reachable_desired_width.
    apply reach_step, Hw.
Qed.

(** C9: a non-empty buffer of two or three dimensions has a positive
    second dimension, so the division by it yields a value and
    [updateImage] does not raise ZeroDivisionError. *)
Theorem updateImage_no_zero_division (b : np.ndarray) :
  List.length (np.shape b) = 2%nat \/ List.length (np.shape b) = 3%nat ->
  np.size b <> 0 ->
  exists wd,
    getitem (np.shape b) 1 = Return wd /\ 0 < wd /\
    (forall dw, exists q, truediv dw wd = Return q) /\
    forall w, result (updateImage INTER_LINEAR b) w <> Raise ZeroDivisionError.
Proof.
  intros Hl Hz.
  destruct (np.shape b) as [|h [|wd rest]] eqn:Hs;
    [ cbn in Hl; destruct Hl; discriminate
    | cbn in Hl; destruct Hl; discriminate | ].
  destruct (size_cons _ _ _ Hs Hz) as [_ Hrest]. cbn in Hrest.
  assert (Hwd : wd <> 0) by (intros ->; apply Hrest; reflexivity).
  exists wd. split; [reflexivity|]. split; [lia|]. split.
  - intros dw. destruct wd as [|p]; [congruence|]. eexists. reflexivity.
  - intros w.
    destruct (updateImage_outcome INTER_LINEAR b w Hz)
      as [Hr | (e & Hne & Hr)];
      rewrite Hr; congruence.
Qed.

(** C10: in every reachable state the field holds an image, never None,
    so [paintEvent] passes its guard and blits; [__init__] and
    [clearBuffers] leave the null image there, and an accepted submit an
    image with data, of positive width and height. *)
Theorem showed_image_never_None (w : world) :
  reachable INTER_LINEAR w ->
  (exists img,
     showed_image (self w) = Some img /\
     painter_calls (exec paintEvent w) = painter_calls w ++ [blit img]) /\
  showed_image (self new_widget) = Some Qt.NullImage /\
  showed_image (self (exec clearBuffers w)) = Some Qt.NullImage /\
  forall b, accepted INTER_LINEAR b w ->
    exists d,
      showed_image (self (exec (updateImage INTER_LINEAR b) w))
        = Some (Qt.Image d) /\
      0 < Qt.d_width d /\ 0 < Qt.d_height d.
Proof.
  intros Hw. split; [|split; [reflexivity|split]].
  - pose proof (reachable_present w Hw) as Hp.
    destruct (showed_image (self w)) as [img|] eqn:E; [|congruence].
    exists img. split; [reflexivity|].
    unfold exec, paintEvent, bind, get. cbn. rewrite E. reflexivity.
  - unfold exec, clearBuffers, repaint, paintEvent. cbn.
    destruct (visible (self w)); reflexivity.
  - intros b Hb.
    destruct (accepted_stored INTER_LINEAR b w Hb)
      as (f & h & wd & rest & _ & Hh & Hwd & Hf & Hu).
    exists (f (grayscale_colortable (self w))).
    unfold exec. rewrite (Hu w).
    destruct (store_and_repaint h wd
                (Qt.Image (f (grayscale_colortable (self w)))) w)
      as (_ & Hi & _).
    destruct (Hf (grayscale_colortable (self w))) as (_ & -> & ->).
    split; [exact Hi|]. lia.
Qed.

End Claims.

(** ** Instances on the sample data *)

(** C3 as stated fails on a new widget: it shows no image, and
    [paintEvent] makes a [drawPixmap] call. *)
Lemma paintEvent_placeholder_blits :
  ~ paints_nothing_without_image new_widget.
Proof.
  intros H. destruct (H eq_refl) as [Hcalls _].
  vm_compute in Hcalls. discriminate Hcalls.
Qed.

(** A 2-by-4 buffer is stored 2 wide and 4 high, not 480 wide. *)
Lemma updateImage_gray_size_2x4 :
  desired_width (self new_widget) = 480 /\
  np.shape gray_2x4 = [2; 4] /\ np.size gray_2x4 <> 0 /\
  result (updateImage INTER_NEAREST gray_2x4) new_widget = Return tt /\
  fixed_size (self (exec (updateImage INTER_NEAREST gray_2x4) new_widget))
    = Some (2, 4) /\
  exists img,
    showed_image (self (exec (updateImage INTER_NEAREST gray_2x4) new_widget))
      = Some img /\
    Qt.width img = 2 /\ Qt.height img = 4.
Proof.
  assert (Hs : np.shape gray_2x4 = [2; 4]) by reflexivity.
  assert (Hz : np.size gray_2x4 <> 0) by (intros H; discriminate H).
  exact (conj eq_refl (conj Hs (conj Hz
           (updateImage_gray_size INTER_NEAREST gray_2x4 2 4 new_widget
              Hs Hz)))).
Defined.

(** A blue and a red pixel are stored as they came, channels swapped. *)
Lemma updateImage_color_stored_1x2 :
  np.shape color_1x2 = [1; 2; 3] /\ np.size color_1x2 <> 0 /\
  showed_image (self (exec (updateImage INTER_NEAREST color_1x2) new_widget)) =
    Some (Qt.Image
            (rgb_data (map Some [x00; x00; xff; xff; x00; x00]) 1 2)).
Proof.
  assert (Hs : np.shape color_1x2 = [1; 2; 3]) by reflexivity.
  assert (Hz : np.size color_1x2 <> 0) by (intros H; discriminate H).
  split; [exact Hs|]. split; [exact Hz|].
  destruct (updateImage_color_stored INTER_NEAREST color_1x2 1 2 new_widget
              Hs Hz) as (_ & _ & Hi & _).
  exact Hi.
Defined.

(** On a new widget the callback makes one call and paints nothing. *)
Lemma paintEvent_no_image_new_widget :
  has_no_image new_widget = true /\
  canvas (exec paintEvent new_widget) = canvas new_widget /\
  painter_calls (exec paintEvent new_widget) =
    [Qt.DrawPixmap 0 0 0 0 (Qt.PixmapOf Qt.NullImage)].
Proof.
  assert (H : has_no_image new_widget = true) by reflexivity.
  destruct (paintEvent_no_image new_widget H) as (_ & _ & Hc & _ & Hp).
  split; [exact H|]. split; [exact Hc|]. exact Hp.
Defined.

(** An empty buffer leaves a new widget as it was. *)
Lemma updateImage_empty_unchanged_0x5 :
  np.size empty_0x5 = 0 /\
  result (updateImage INTER_NEAREST empty_0x5) new_widget = Return tt /\
  self (exec (updateImage INTER_NEAREST empty_0x5) new_widget)
    = self new_widget.
Proof.
  assert (Hz : np.size empty_0x5 = 0) by reflexivity.
  destruct (updateImage_empty_unchanged INTER_NEAREST empty_0x5 new_widget Hz)
    as (Hr & Hself & _).
  split; [exact Hz|]. split; [exact Hr|exact Hself].
Defined.

(** After a submit, entry 200 of the table is still the grey 200; a second
    submit of the 2-by-4 buffer is stored 2 wide and 4 high in 4 lines of
    4 bytes, 16 bytes in all. *)
Lemma grayscale_colortable_fixed_after_submit :
  reachable INTER_NEAREST
    (exec (updateImage INTER_NEAREST gray_2x4) new_widget) /\
  nth_error
    (grayscale_colortable
       (self (exec (updateImage INTER_NEAREST gray_2x4) new_widget))) 200
  = Some (Qt.qRgb 200 200 200) /\
  exists d,
    showed_image
      (self (exec (updateImage INTER_NEAREST gray_2x4)
               (exec (updateImage INTER_NEAREST gray_2x4) new_widget)))
      = Some (Qt.Image d) /\
    Qt.d_width d = 2 /\ Qt.d_height d = 4 /\
    Qt.d_bytesPerLine d = 4 /\ List.length (Qt.bits d) = 16%nat.
Proof.
  assert (Hw : reachable INTER_NEAREST
                 (exec (updateImage INTER_NEAREST gray_2x4) new_widget))
    by exact (reach_step INTER_NEAREST (Submit gray_2x4) new_widget
                (reach_new INTER_NEAREST)).
  split; [exact Hw|].
  destruct (grayscale_colortable_fixed INTER_NEAREST _ Hw)
    as (_ & _ & He & _ & Hst).
  destruct (He 200 eq_refl) as [Hn _]. split; [exact Hn|].
  assert (Hz : np.size gray_2x4 <> 0) by (intros H; discriminate H).
  destruct (Hst gray_2x4 2 4 eq_refl Hz)
    as (d & Hi & _ & _ & Hdw & Hdh & Hbpl & Hlen & _).
  exists d. split; [exact Hi|]. split; [exact Hdw|]. split; [exact Hdh|].
  split; [exact Hbpl|]. rewrite Hlen, Hbpl. reflexivity.
Defined.

(** Two submits on a new widget store the image of the second buffer,
    which is also what the second one stores on a widget that was only
    shown. *)
Lemma updateImage_replaces_2x4 :
  reachable INTER_NEAREST new_widget /\
  reachable INTER_NEAREST (exec (set_visible true) new_widget) /\
  accepted INTER_NEAREST gray_2x4 new_widget /\
  accepted INTER_NEAREST gray_2x4'
    (exec (updateImage INTER_NEAREST gray_2x4) new_widget) /\
  exists d2,
    showed_image
      (self (exec (updateImage INTER_NEAREST gray_2x4')
               (exec (updateImage INTER_NEAREST gray_2x4) new_widget)))
      = Some (Qt.Image d2) /\
    d2 = gray_data (INTER_NEAREST (gray_Mat gray_2x4' 2 4) 2 4) 2 4
           (grayscale_colortable (self new_widget)) /\
    showed_image
      (self (exec (updateImage INTER_NEAREST gray_2x4')
               (exec (set_visible true) new_widget)))
      = Some (Qt.Image d2).
Proof.
  assert (H0 : reachable INTER_NEAREST new_widget)
    by exact (reach_new INTER_NEAREST).
  assert (H0' : reachable INTER_NEAREST (exec (set_visible true) new_widget))
    by exact (reach_step INTER_NEAREST Show new_widget H0).
  assert (H1 : accepted INTER_NEAREST gray_2x4 new_widget)
    by (split; [intros H; discriminate H | reflexivity]).
  assert (H2 : accepted INTER_NEAREST gray_2x4'
                 (exec (updateImage INTER_NEAREST gray_2x4) new_widget))
    by (split; [intros H; discriminate H | reflexivity]).
  repeat (split; [assumption|]).
  destruct (updateImage_replaces INTER_NEAREST _ _ _ _ H0 H0' H1 H2)
    as (d2 & h & wd & rest & Hs & Ha & _ & _ & _ & _ & Hg & _ & _ & Hb & _).
  injection Hs as <- <- <-.
  exists d2. split; [exact Ha|]. split; [exact (Hg (or_introl eq_refl))|].
  exact Hb.
Defined.

(** The width is 480 after a clear. *)
Lemma desired_width_fixed_after_clear :
  reachable INTER_NEAREST (exec clearBuffers new_widget) /\
  desired_width (self (exec clearBuffers new_widget)) = 480.
Proof.
  assert (Hw : reachable INTER_NEAREST (exec clearBuffers new_widget))
    by exact (reach_step INTER_NEAREST Clear new_widget
                (reach_new INTER_NEAREST)).
  split; [exact Hw|].
  destruct (desired_width_fixed INTER_NEAREST _ Hw) as (_ & H & _). exact H.
Defined.

(** The 2-by-4 buffer is divided by 4. *)
Lemma updateImage_no_zero_division_2x4 :
  (List.length (np.shape gray_2x4) = 2%nat \/
   List.length (np.shape gray_2x4) = 3%nat) /\
  np.size gray_2x4 <> 0 /\
  exists wd,
    getitem (np.shape gray_2x4) 1 = Return wd /\ 0 < wd /\
    (forall dw, exists q, truediv dw wd = Return q) /\
    forall w,
      result (updateImage INTER_NEAREST gray_2x4) w <> Raise ZeroDivisionError.
Proof.
  assert (Hl : List.length (np.shape gray_2x4) = 2%nat \/
               List.length (np.shape gray_2x4) = 3%nat)
    by (left; reflexivity).
  assert (Hz : np.size gray_2x4 <> 0) by (intros H; discriminate H).
  exact (conj Hl (conj Hz
           (updateImage_no_zero_division INTER_NEAREST gray_2x4 Hl Hz))).
Defined.

(** A new widget holds the null image and blits it. *)
Lemma showed_image_never_None_new_widget :
  reachable INTER_NEAREST new_widget /\
  exists img,
    showed_image (self new_widget) = Some img /\
    painter_calls (exec paintEvent new_widget)
      = painter_calls new_widget ++ [blit img].
Proof.
  assert (Hw : reachable INTER_NEAREST new_widget)
    by exact (reach_new INTER_NEAREST).
  split; [exact Hw|].
  destruct (showed_image_never_None INTER_NEAREST new_widget Hw) as [H _].
  exact H.
Defined.

(** * Further properties of the methods *)

Section Further.

Variable INTER_LINEAR : cv2.interpolation_method.

Lemma clearBuffers_calls (w : world) :
  visible (self (exec clearBuffers w)) = visible (self w) /\
  canvas (exec clearBuffers w) = canvas w /\
  painter_calls (exec clearBuffers w) =
    painter_calls w ++
    (if visible (self w) then [blit Qt.NullImage] else []).
Proof.
  unfold exec, clearBuffers, repaint, paintEvent. cbn.
  destruct (visible (self w)); cbn; rewrite ?app_nil_r; repeat split.
Qed.

(** ** What every reachable state satisfies *)

Lemma step_shape (o : op) (w : world) :
  positive_fixed_size w /\ image_layout w /\
  Forall origin_blit (painter_calls w) /\ Forall paints (canvas w) ->
  positive_fixed_size (exec (step INTER_LINEAR o) w) /\
  image_layout (exec (step INTER_LINEAR o) w) /\
  Forall origin_blit (painter_calls (exec (step INTER_LINEAR o) w)) /\
  Forall paints (canvas (exec (step INTER_LINEAR o) w)).
Proof.
  intros (Hfix & Hlay & Hcalls & Hcanvas).
  destruct o as [b | | | | ]; cbn [step].
  - (* Submit *)
    destruct (updateImage_cases INTER_LINEAR b)
      as [Hz | [(_ & _ & Hu) | [(_ & _ & Hu) | [(_ & _ & h & wd & Hh & Hwd & Hu)
          | (_ & f & h & wd & rest & _ & Hh & Hwd & Hf & Hu)]]]].
    + rewrite (updateImage_empty INTER_LINEAR b Hz). repeat split; assumption.
    + unfold exec. rewrite Hu. repeat split; assumption.
    + unfold exec. rewrite Hu. repeat split; assumption.
    + unfold exec at 1 2 3 4. rewrite Hu. cbn [snd].
      split; [|split; [exact Hlay|split; assumption]].
      unfold positive_fixed_size, exec. cbn -[N.min].
      unfold Qt.QWIDGETSIZE_MAX. lia.
    + unfold exec at 1 2 3 4. rewrite Hu.
      set (img := Qt.Image (f (grayscale_colortable (self w)))).
      destruct (store_and_repaint h wd img w) as (_ & _ & _ & Hp & _).
      destruct (store_and_repaint_world h wd img w) as (Hself & Hc).
      destruct (Hf (grayscale_colortable (self w))) as (Hl & Hw & Hh').
      unfold exec in Hp, Hself, Hc.
      unfold positive_fixed_size, image_layout.
      rewrite Hself, Hp, Hc. cbn [fixed_size showed_image grayscale_colortable].
      split; [unfold Qt.QWIDGETSIZE_MAX; lia|].
      split; [exact Hl|].
      split.
      * apply Forall_app. split; [exact Hcalls|].
        destruct (visible (self w)); repeat constructor.
      * apply Forall_app. split; [exact Hcanvas|].
        destruct (visible (self w)); cbn; repeat constructor; cbn;
          destruct Hl as (? & ? & _); lia.
  - (* Clear *)
    unfold exec, clearBuffers, repaint, paintEvent, positive_fixed_size,
      image_layout.
    cbn. destruct (visible (self w)); cbn; repeat split; try assumption.
    apply Forall_app. split; [exact Hcalls|]. repeat constructor.
  - (* Paint *)
    unfold exec, paintEvent, positive_fixed_size, image_layout in *.
    cbn. destruct (showed_image (self w)) as [[|d]|] eqn:E; cbn;
      rewrite ?E; (split; [exact Hfix | split; [exact Hlay | split]]);
      try assumption.
    + apply Forall_app. split; [exact Hcalls|]. repeat constructor.
    + apply Forall_app. split; [exact Hcalls|]. repeat constructor.
    + apply Forall_app. split; [exact Hcanvas|].
      destruct Hlay as (? & ? & _). repeat constructor; assumption.
  - repeat split; assumption.
  - repeat split; assumption.
Qed.

Lemma reachable_shape (w : world) :
  reachable INTER_LINEAR w ->
  positive_fixed_size w /\ image_layout w /\
  Forall origin_blit (painter_calls w) /\ Forall paints (canvas w).
Proof.
  induction 1 as [|o w Hw IH].
  - repeat split; constructor.
  - apply step_shape, IH.
Qed.

(** ** Further properties, one by one *)

(** X1: [updateImage] raises IndexError exactly for the non-empty buffers
    of fewer than two dimensions (it reads [shape[1]]), and then leaves
    the widget, the painter, the canvas and the output untouched. *)
Theorem updateImage_IndexError (b : np.ndarray) (w : world) :
  (result (updateImage INTER_LINEAR b) w = Raise IndexError <->
   np.size b <> 0 /\ (List.length (np.shape b) < 2)%nat) /\
  (result (updateImage INTER_LINEAR b) w = Raise IndexError ->
   exec (updateImage INTER_LINEAR b) w = w).
Proof.
  unfold result, exec.
  destruct (updateImage_cases INTER_LINEAR b)
    as [Hz | [(Hz & Hl & Hu) | [(Hz & Hl & Hu)
        | [(Hz & Hl & h & wd & _ & _ & Hu)
          | (Hz & f & h & wd & rest & Hs & _ & _ & _ & Hu)]]]].
  - rewrite (updateImage_empty INTER_LINEAR b Hz). cbn.
    split; [split|]; [discriminate | intros [H _]; congruence | discriminate].
  - rewrite Hu. cbn. split; [split|]; auto.
  - rewrite Hu. cbn.
    split; [split|]; [discriminate | intros [_ H]; lia | discriminate].
  - rewrite Hu. cbn [fst].
    split; [split|]; [discriminate | intros [_ H]; lia | discriminate].
  - rewrite Hu.
    destruct (store_and_repaint h wd
                (Qt.Image (f (grayscale_colortable (self w)))) w) as [Hr _].
    unfold result in Hr. rewrite Hr.
    split; [split|];
      [discriminate | intros [_ H]; rewrite Hs in H; cbn in H; lia
      | discriminate].
Qed.

(** X2: a non-empty two-channel buffer of [h] rows and [wd] columns
    passes the resize, so the widget is fixed to the new size (each side
    capped by the toolkit), and then fails in the colour conversion:
    [updateImage] raises, the fixed size has changed, the stored image is
    the old one, nothing is painted or printed. *)
Theorem updateImage_unsupported_channels (b : np.ndarray) (h wd : N)
    (w : world) :
  np.shape b = [h; wd; 2] -> np.size b <> 0 ->
  result (updateImage INTER_LINEAR b) w = Raise cv2_error /\
  fixed_size (self (exec (updateImage INTER_LINEAR b) w))
    = Some (N.min h Qt.QWIDGETSIZE_MAX, N.min wd Qt.QWIDGETSIZE_MAX) /\
  showed_image (self (exec (updateImage INTER_LINEAR b) w))
    = showed_image (self w) /\
  painter_calls (exec (updateImage INTER_LINEAR b) w) = painter_calls w /\
  canvas (exec (updateImage INTER_LINEAR b) w) = canvas w /\
  stdout (exec (updateImage INTER_LINEAR b) w) = stdout w.
Proof.
  intros Hs Hz. unfold result, exec.
  rewrite (updateImage_other_channels INTER_LINEAR b h wd 2 w Hs Hz);
    [repeat split | | | | ]; intros H; discriminate H.
Qed.

(** X3: whatever the buffer and the state, [updateImage] returns or raises
    IndexError or cv2.error; it never raises ZeroDivisionError or
    AttributeError. *)
Theorem updateImage_only_raises (b : np.ndarray) (w : world) :
  result (updateImage INTER_LINEAR b) w = Return tt \/
  result (updateImage INTER_LINEAR b) w = Raise IndexError \/
  result (updateImage INTER_LINEAR b) w = Raise cv2_error.
Proof.
  unfold result.
  destruct (updateImage_cases INTER_LINEAR b)
    as [Hz | [(Hz & Hl & Hu) | [(Hz & Hl & Hu)
        | [(Hz & Hl & h & wd & _ & _ & Hu)
          | (Hz & f & h & wd & rest & _ & _ & _ & _ & Hu)]]]].
  - rewrite (updateImage_empty INTER_LINEAR b Hz). auto.
  - rewrite Hu. auto.
  - rewrite Hu. auto.
  - rewrite Hu. auto.
  - rewrite Hu.
    destruct (store_and_repaint h wd
                (Qt.Image (f (grayscale_colortable (self w)))) w) as [Hr _].
    unfold result in Hr. rewrite Hr. auto.
Qed.

(** X4: an accepted submit stores an image with data and fixes the widget
    to that image's width and height, each capped at the largest size the
    toolkit gives a widget; if the widget is visible the image is painted
    once, at (0, 0) over the image's own width and height, and if it is
    hidden nothing is painted; nothing is printed. *)
Theorem accepted_fits_widget (b : np.ndarray) (w : world) :
  accepted INTER_LINEAR b w ->
  exists img,
    showed_image (self (exec (updateImage INTER_LINEAR b) w)) = Some img /\
    Qt.isNull img = false /\
    fixed_size (self (exec (updateImage INTER_LINEAR b) w))
      = Some (N.min (Qt.width img) 16777215,
              N.min (Qt.height img) 16777215) /\
    painter_calls (exec (updateImage INTER_LINEAR b) w) =
      painter_calls w ++
      (if visible (self w)
       then [Qt.DrawPixmap 0 0 (Qt.width img) (Qt.height img)
               (Qt.PixmapOf img)]
       else []) /\
    canvas (exec (updateImage INTER_LINEAR b) w) =
      canvas w ++
      (if visible (self w)
       then [Qt.DrawPixmap 0 0 (Qt.width img) (Qt.height img)
               (Qt.PixmapOf img)]
       else []) /\
    stdout (exec (updateImage INTER_LINEAR b) w) = stdout w.
Proof.
  intros Hb.
  destruct (accepted_stored INTER_LINEAR b w Hb)
    as (f & h & wd & rest & _ & _ & _ & Hf & Hu).
  set (img := Qt.Image (f (grayscale_colortable (self w)))).
  exists img. unfold exec. rewrite (Hu w). fold img.
  destruct (store_and_repaint h wd img w) as (_ & Hi & Hfix & Hp & Ho).
  destruct (store_and_repaint_world h wd img w) as (_ & Hc).
  destruct (Hf (grayscale_colortable (self w))) as (_ & Hw & Hh).
  unfold exec in *.
  split; [exact Hi|]. split; [reflexivity|].
  split; [rewrite Hfix; cbn [Qt.width Qt.height img]; rewrite Hw, Hh;
          reflexivity|].
  split; [exact Hp|]. split; [|exact Ho].
  rewrite Hc. cbn [Qt.isNull img negb]. rewrite andb_true_r. reflexivity.
Qed.

(** X5: submitting the same buffer twice in a row leaves the widget as
    one submit does and ends the same way, for every buffer: empty,
    refused or stored. *)
Theorem updateImage_twice (b : np.ndarray) (w : world) :
  self (exec (updateImage INTER_LINEAR b) (exec (updateImage INTER_LINEAR b) w))
    = self (exec (updateImage INTER_LINEAR b) w) /\
  result (updateImage INTER_LINEAR b) (exec (updateImage INTER_LINEAR b) w)
    = result (updateImage INTER_LINEAR b) w.
Proof.
  unfold result, exec.
  destruct (updateImage_cases INTER_LINEAR b)
    as [Hz | [(Hz & Hl & Hu) | [(Hz & Hl & Hu)
        | [(Hz & Hl & h & wd & _ & _ & Hu)
          | (Hz & f & h & wd & rest & _ & _ & _ & _ & Hu)]]]].
  - rewrite (updateImage_empty INTER_LINEAR b Hz). split; reflexivity.
  - rewrite !Hu. cbn. rewrite ?Hu. split; reflexivity.
  - rewrite !Hu. cbn. rewrite ?Hu. split; reflexivity.
  - rewrite (Hu w). cbn [snd]. rewrite Hu. split; reflexivity.
  - rewrite (Hu w).
    set (img := Qt.Image (f (grayscale_colortable (self w)))).
    destruct (store_and_repaint h wd img w) as (Hr & _).
    destruct (store_and_repaint_world h wd img w) as (Hself & _).
    unfold result, exec in Hr, Hself.
    set (w1 := snd ((setFixedSize h wd ;;; set_showed_image (Some img) ;;;
                     repaint) w)) in *.
    rewrite (Hu w1).
    assert (Ht : grayscale_colortable (self w1) = grayscale_colortable (self w))
      by (rewrite Hself; reflexivity).
    rewrite Ht. fold img.
    destruct (store_and_repaint h wd img w1) as (Hr1 & _).
    destruct (store_and_repaint_world h wd img w1) as (Hself1 & _).
    unfold result, exec in Hr1, Hself1.
    split; [|congruence].
    rewrite Hself1, Hself. reflexivity.
Qed.

(** X6: a non-empty buffer with a third axis of length 1 is handled as
    the 2-D buffer of the same bytes: the two submits give the same result
    and the same world. *)
Theorem updateImage_single_channel (b b1 : np.ndarray) (h wd : N)
    (w : world) :
  np.shape b = [h; wd] -> np.shape b1 = [h; wd; 1] ->
  np.data b1 = np.data b -> np.size b <> 0 ->
  updateImage INTER_LINEAR b1 w = updateImage INTER_LINEAR b w.
Proof.
  intros Hs Hs1 Hd Hz.
  assert (Hz1 : np.size b1 <> 0).
  { unfold np.size in *. rewrite Hs1. rewrite Hs in Hz. cbn in *. lia. }
  rewrite (updateImage_gray INTER_LINEAR b h wd w (or_introl Hs) Hz).
  rewrite (updateImage_gray INTER_LINEAR b1 h wd w (or_intror Hs1) Hz1).
  unfold gray_Mat. rewrite Hd. reflexivity.
Qed.

(** X7: a non-empty four-channel buffer is accepted and stored as a
    direct-colour image of three bytes per pixel: element [k] of the
    stored bytes holds the third, second and first byte of element [k] of
    the buffer, and the fourth (alpha) byte is dropped. *)
Theorem updateImage_four_channels (b : np.ndarray) (h wd : N) (w : world) :
  np.shape b = [h; wd; 4] -> np.size b <> 0 ->
  result (updateImage INTER_LINEAR b) w = Return tt /\
  showed_image (self (exec (updateImage INTER_LINEAR b) w)) =
    Some (Qt.Image (rgb_data (cv2.bgr2rgb true (np.data b)) h wd)) /\
  forall k, (4 * k + 3 < List.length (np.data b))%nat ->
    nth_error (cv2.bgr2rgb true (np.data b)) (3 * k)
      = nth_error (np.data b) (4 * k + 2) /\
    nth_error (cv2.bgr2rgb true (np.data b)) (3 * k + 1)
      = nth_error (np.data b) (4 * k + 1) /\
    nth_error (cv2.bgr2rgb true (np.data b)) (3 * k + 2)
      = nth_error (np.data b) (4 * k).
Proof.
  intros Hs Hz. unfold result, exec.
  rewrite (updateImage_color INTER_LINEAR b h wd 4 w Hs Hz (or_intror eq_refl)).
  change (4 =? 4) with true.
  destruct (store_and_repaint h wd
              (Qt.Image (rgb_data (cv2.bgr2rgb true (np.data b)) h wd)) w)
    as (Hr & Hi & _).
  split; [exact Hr|]. split; [exact Hi|].
  intros k Hk. apply bgra2rgb_element, Hk.
Qed.

(** X8: for a non-empty colour buffer of three or four channels that
    holds one byte per value, the stored image holds exactly
    bytes-per-line times height bytes: the image reads all of the
    converted buffer and nothing beyond it. *)
Theorem updateImage_color_byte_count (b : np.ndarray) (h wd ch : N)
    (w : world) :
  np.shape b = [h; wd; ch] -> ch = 3 \/ ch = 4 -> np.size b <> 0 ->
  List.length (np.data b) = N.to_nat (np.size b) ->
  exists d,
    showed_image (self (exec (updateImage INTER_LINEAR b) w))
      = Some (Qt.Image d) /\
    Qt.d_format d = Qt.Format_RGB888 /\
    List.length (Qt.bits d)
      = N.to_nat (Qt.d_bytesPerLine d * Qt.d_height d).
Proof.
  intros Hs Hch Hz Hlen. unfold exec.
  rewrite (updateImage_color INTER_LINEAR b h wd ch w Hs Hz Hch).
  destruct (store_and_repaint h wd
              (Qt.Image (rgb_data (cv2.bgr2rgb (ch =? 4) (np.data b)) h wd)) w)
    as (_ & Hi & _).
  eexists. split; [exact Hi|]. split; [reflexivity|].
  cbn [rgb_data Qt.bits Qt.d_bytesPerLine Qt.d_height].
  unfold np.size in Hlen. rewrite Hs in Hlen. cbn [fold_right] in Hlen.
  rewrite (bgr2rgb_length (ch =? 4) (N.to_nat (h * wd))).
  - lia.
  - rewrite Hlen. destruct Hch as [-> | ->]; cbn [N.eqb Pos.eqb]; lia.
Qed.

(** X9: [clearBuffers] keeps the fixed size, the visibility, the width and
    the colour table, paints nothing on the canvas and prints nothing; on
    a visible widget it makes one [drawPixmap] call, of the null pixmap
    with width 0 and height 0, and on a hidden one none. *)
Theorem clearBuffers_effects (w : world) :
  fixed_size (self (exec clearBuffers w)) = fixed_size (self w) /\
  visible (self (exec clearBuffers w)) = visible (self w) /\
  desired_width (self (exec clearBuffers w)) = desired_width (self w) /\
  grayscale_colortable (self (exec clearBuffers w))
    = grayscale_colortable (self w) /\
  canvas (exec clearBuffers w) = canvas w /\
  stdout (exec clearBuffers w) = stdout w /\
  painter_calls (exec clearBuffers w) =
    painter_calls w ++
    (if visible (self w)
     then [Qt.DrawPixmap 0 0 0 0 (Qt.PixmapOf Qt.NullImage)]
     else []).
Proof.
  unfold exec, clearBuffers, repaint, paintEvent. cbn.
  destruct (visible (self w)); cbn; rewrite ?app_nil_r; repeat split.
Qed.

(** X10: in every reachable state the widget has no fixed size yet or a
    fixed size with positive width and height. *)
Theorem fixed_size_positive (w : world) :
  reachable INTER_LINEAR w -> positive_fixed_size w.
Proof. intros Hw. apply (reachable_shape w Hw). Qed.

(** X11: in every reachable state a stored image with data has positive
    width and height and is either indexed, holding its own bytes in
    lines aligned to 32 bits (4 * ceil(width / 4) bytes each, all of them
    there) with the widget's colour table, or direct colour over the
    caller's buffer, with three bytes per pixel in a line and no colour
    table. *)
Theorem showed_image_layout (w : world) :
  reachable INTER_LINEAR w -> image_layout w.
Proof. intros Hw. apply (reachable_shape w Hw). Qed.

(** X12: in every reachable state each [drawPixmap] call made so far was
    at (0, 0) with the width and height of the image it drew, and each call
    that reached the canvas drew an image with data and positive width and
    height. *)
Theorem painter_calls_at_origin (w : world) :
  reachable INTER_LINEAR w ->
  Forall origin_blit (painter_calls w) /\ Forall paints (canvas w).
Proof. intros Hw. apply (reachable_shape w Hw). Qed.

(** X13: while the widget is hidden, submits and clears make no
    [drawPixmap] call and paint nothing: after any sequence of submit,
    clear and hide operations on a hidden widget the painter calls and the
    canvas are as before, and the widget is still hidden. *)
Theorem hidden_never_paints (ops : list op) : forall w : world,
  visible (self w) = false -> forallb stays_hidden ops = true ->
  visible (self (run INTER_LINEAR ops w)) = false /\
  painter_calls (run INTER_LINEAR ops w) = painter_calls w /\
  canvas (run INTER_LINEAR ops w) = canvas w.
Proof.
  induction ops as [|o ops IH]; intros w Hv Hops; [auto|].
  cbn in Hops. apply andb_true_iff in Hops. destruct Hops as [Ho Hops].
  rewrite run_cons.
  assert (Hs : visible (self (exec (step INTER_LINEAR o) w)) = false /\
               painter_calls (exec (step INTER_LINEAR o) w) = painter_calls w /\
               canvas (exec (step INTER_LINEAR o) w) = canvas w).
  { destruct o as [b | | | | ]; try discriminate Ho; cbn [step].
    - unfold exec.
      destruct (updateImage_cases INTER_LINEAR b)
        as [Hz | [(_ & _ & Hu) | [(_ & _ & Hu)
            | [(_ & _ & h & wd & _ & _ & Hu)
              | (_ & f & h & wd & rest & _ & _ & _ & _ & Hu)]]]].
      + rewrite (updateImage_empty INTER_LINEAR b Hz). auto.
      + rewrite Hu. auto.
      + rewrite Hu. auto.
      + rewrite Hu. auto.
      + rewrite Hu.
        set (img := Qt.Image (f (grayscale_colortable (self w)))).
        destruct (store_and_repaint h wd img w) as (_ & _ & _ & Hp & _).
        destruct (store_and_repaint_world h wd img w) as (Hself & Hc).
        unfold exec in Hp, Hself, Hc.
        rewrite Hself, Hp, Hc, Hv. cbn. rewrite !app_nil_r. auto.
    - destruct (clearBuffers_calls w) as (Hvis & Hc & Hp).
      rewrite Hvis, Hc, Hp, Hv. rewrite app_nil_r. auto.
    - cbn. auto. }
  destruct Hs as (Hv1 & Hp1 & Hc1).
  destruct (IH _ Hv1 Hops) as (Hv2 & Hp2 & Hc2).
  rewrite Hv2, Hp2, Hc2. auto.
Qed.

End Further.

(** ** Instances of the further properties *)

(** A one-dimensional buffer is refused with IndexError, nothing done. *)
Lemma updateImage_IndexError_flat_3 :
  result (updateImage INTER_NEAREST flat_3) new_widget = Raise IndexError /\
  exec (updateImage INTER_NEAREST flat_3) new_widget = new_widget.
Proof.
  destruct (updateImage_IndexError INTER_NEAREST flat_3 new_widget)
    as [[_ Hr] Hw].
  assert (H : result (updateImage INTER_NEAREST flat_3) new_widget
              = Raise IndexError).
  { apply Hr. split; [intros H; discriminate H | cbn; lia]. }
  split; [exact H | exact (Hw H)].
Defined.

(** A two-channel buffer leaves a new widget fixed to 1 by 2 and still
    without an image. *)
Lemma updateImage_unsupported_channels_1x2 :
  result (updateImage INTER_NEAREST two_channel_1x2) new_widget
    = Raise cv2_error /\
  fixed_size (self (exec (updateImage INTER_NEAREST two_channel_1x2)
                      new_widget)) = Some (1, 2) /\
  showed_image (self (exec (updateImage INTER_NEAREST two_channel_1x2)
                        new_widget)) = Some Qt.NullImage.
Proof.
  assert (Hs : np.shape two_channel_1x2 = [1; 2; 2]) by reflexivity.
  assert (Hz : np.size two_channel_1x2 <> 0) by (intros H; discriminate H).
  destruct (updateImage_unsupported_channels INTER_NEAREST two_channel_1x2
              1 2 new_widget Hs Hz) as (Hr & Hf & Hi & _).
  split; [exact Hr|]. split; [exact Hf|exact Hi].
Defined.

(** On a shown widget a 2-by-4 buffer is painted once, 2 wide, 4 high. *)
Lemma accepted_fits_widget_2x4 :
  accepted INTER_NEAREST gray_2x4 (exec (set_visible true) new_widget) /\
  exists img,
    fixed_size (self (exec (updateImage INTER_NEAREST gray_2x4)
                        (exec (set_visible true) new_widget)))
      = Some (N.min (Qt.width img) 16777215,
              N.min (Qt.height img) 16777215) /\
    canvas (exec (updateImage INTER_NEAREST gray_2x4)
              (exec (set_visible true) new_widget))
      = [Qt.DrawPixmap 0 0 (Qt.width img) (Qt.height img) (Qt.PixmapOf img)].
Proof.
  assert (Ha : accepted INTER_NEAREST gray_2x4
                 (exec (set_visible true) new_widget))
    by (split; [intros H; discriminate H | reflexivity]).
  split; [exact Ha|].
  destruct (accepted_fits_widget INTER_NEAREST gray_2x4 _ Ha)
    as (img & _ & _ & Hf & _ & Hc & _).
  exists img. split; [exact Hf|exact Hc].
Defined.

(** The 2-by-4-by-1 buffer is handled as the 2-by-4 one. *)
Lemma updateImage_single_channel_2x4 :
  updateImage INTER_NEAREST gray_2x4x1 new_widget
  = updateImage INTER_NEAREST gray_2x4 new_widget.
Proof.
  apply (updateImage_single_channel INTER_NEAREST gray_2x4 gray_2x4x1 2 4);
    [reflexivity | reflexivity | reflexivity | intros H; discriminate H].
Defined.

(** A blue and a red pixel with alpha are stored without the alpha. *)
Lemma updateImage_four_channels_1x2 :
  showed_image (self (exec (updateImage INTER_NEAREST bgra_1x2) new_widget)) =
    Some (Qt.Image
            (rgb_data (map Some [x00; x00; xff; xff; x00; x00]) 1 2)).
Proof.
  assert (Hs : np.shape bgra_1x2 = [1; 2; 4]) by reflexivity.
  assert (Hz : np.size bgra_1x2 <> 0) by (intros H; discriminate H).
  destruct (updateImage_four_channels INTER_NEAREST bgra_1x2 1 2 new_widget
              Hs Hz) as (_ & Hi & _).
  exact Hi.
Defined.

(** The six bytes of the 1-by-2 colour buffer fill 2 lines of 3 bytes. *)
Lemma updateImage_color_byte_count_1x2 :
  List.length (np.data color_1x2) = N.to_nat (np.size color_1x2) /\
  exists d,
    showed_image (self (exec (updateImage INTER_NEAREST color_1x2) new_widget))
      = Some (Qt.Image d) /\
    List.length (Qt.bits d) = N.to_nat (Qt.d_bytesPerLine d * Qt.d_height d).
Proof.
  assert (Hs : np.shape color_1x2 = [1; 2; 3]) by reflexivity.
  assert (Hz : np.size color_1x2 <> 0) by (intros H; discriminate H).
  assert (Hl : List.length (np.data color_1x2) = N.to_nat (np.size color_1x2))
    by reflexivity.
  split; [exact Hl|].
  destruct (updateImage_color_byte_count INTER_NEAREST color_1x2 1 2 3
              new_widget Hs (or_introl eq_refl) Hz Hl) as (d & Hi & _ & Hn).
  exists d. split; [exact Hi|exact Hn].
Defined.

(** A widget after show, submit and paint. *)
Lemma reachable_shown_submitted_painted :
  reachable INTER_NEAREST
    (run INTER_NEAREST [Show; Submit gray_2x4; Paint] new_widget).
Proof.
  exact (reach_step INTER_NEAREST Paint _
           (reach_step INTER_NEAREST (Submit gray_2x4) _
              (reach_step INTER_NEAREST Show _ (reach_new INTER_NEAREST)))).
Defined.

Lemma fixed_size_positive_after_submit :
  reachable INTER_NEAREST
    (run INTER_NEAREST [Show; Submit gray_2x4; Paint] new_widget) /\
  positive_fixed_size
    (run INTER_NEAREST [Show; Submit gray_2x4; Paint] new_widget).
Proof.
  exact (conj reachable_shown_submitted_painted
           (fixed_size_positive INTER_NEAREST _
              reachable_shown_submitted_painted)).
Defined.

(** After show, submit and paint the stored image has 4 bytes in each of
    its 4 lines, for a width of 2. *)
Lemma showed_image_layout_after_submit :
  reachable INTER_NEAREST
    (run INTER_NEAREST [Show; Submit gray_2x4; Paint] new_widget) /\
  image_layout
    (run INTER_NEAREST [Show; Submit gray_2x4; Paint] new_widget) /\
  exists d,
    showed_image
      (self (run INTER_NEAREST [Show; Submit gray_2x4; Paint] new_widget))
      = Some (Qt.Image d) /\
    Qt.d_width d = 2 /\ Qt.d_bytesPerLine d = 4 /\
    List.length (Qt.bits d) = 16%nat.
Proof.
  split; [exact reachable_shown_submitted_painted|].
  split; [exact (showed_image_layout INTER_NEAREST _
                   reachable_shown_submitted_painted)|].
  eexists. repeat split.
Defined.

Lemma painter_calls_at_origin_after_submit :
  reachable INTER_NEAREST
    (run INTER_NEAREST [Show; Submit gray_2x4; Paint] new_widget) /\
  Forall origin_blit
    (painter_calls
       (run INTER_NEAREST [Show; Submit gray_2x4; Paint] new_widget)) /\
  Forall paints
    (canvas (run INTER_NEAREST [Show; Submit gray_2x4; Paint] new_widget)).
Proof.
  exact (conj reachable_shown_submitted_painted
           (painter_calls_at_origin INTER_NEAREST _
              reachable_shown_submitted_painted)).
Defined.

(** A submit, a clear and a hide on a new widget paint nothing. *)
Lemma hidden_never_paints_new_widget :
  visible (self new_widget) = false /\
  painter_calls
    (run INTER_NEAREST [Submit gray_2x4; Clear; Hide] new_widget) = [] /\
  canvas (run INTER_NEAREST [Submit gray_2x4; Clear; Hide] new_widget) = [].
Proof.
  assert (Hv : visible (self new_widget) = false) by reflexivity.
  split; [exact Hv|].
  destruct (hidden_never_paints INTER_NEAREST [Submit gray_2x4; Clear; Hide]
              new_widget Hv eq_refl) as (_ & Hp & Hc).
  split; [exact Hp|exact Hc].
Defined.

(** A buffer of four axes, 2 by 2 in the first two, is stored as a 2-by-2
    indexed image whose pixels nobody wrote. *)
Lemma updateImage_four_axes_2x2 :
  result (updateImage INTER_NEAREST four_axes_2x2) new_widget = Return tt /\
  showed_image
    (self (exec (updateImage INTER_NEAREST four_axes_2x2) new_widget))
  = Some (Qt.Image
            (gray_data (repeat None 4) 2 2
               (grayscale_colortable (self new_widget)))) /\
  Qt.bits (gray_data (repeat None 4) 2 2
             (grayscale_colortable (self new_widget)))
  = repeat None 8.
Proof. repeat split. Qed.

(** A buffer of 1 row and 17000000 columns is stored 17000000 high, on a
    widget fixed to the largest height there is. *)
Lemma updateImage_gray_size_capped :
  fixed_size
    (self (exec (updateImage INTER_NEAREST wide_1x17000000) new_widget))
  = Some (1, 16777215) /\
  exists img,
    showed_image
      (self (exec (updateImage INTER_NEAREST wide_1x17000000) new_widget))
    = Some img /\
    Qt.width img = 1 /\ Qt.height img = 17000000.
Proof.
  assert (Hs : np.shape wide_1x17000000 = [1; 17000000]) by reflexivity.
  assert (Hz : np.size wide_1x17000000 <> 0) by (intros H; discriminate H).
  unfold exec.
  rewrite (updateImage_gray INTER_NEAREST wide_1x17000000 1 17000000
             new_widget (or_introl Hs) Hz).
  match goal with
  | |- context [set_showed_image (Some ?i)] =>
      destruct (store_and_repaint 1 17000000 i new_widget)
        as (_ & Hi & Hf & _)
  end.
  split; [exact Hf|].
  eexists. split; [exact Hi|]. split; reflexivity.
Qed.
